(** * rastervision.backend.torch_utils.model

    A shallow embedding of [model.py]: the backbone builder
    ([get_out_channels], [resnet_fpn_backbone]) and the Faster-RCNN adapter
    ([MyFasterRCNN.forward]), together with the properties its
    specification states about them.

    [forward] is embedded twice: over values ([forward]), where a BoxList
    is its boxes, labels and scores, and over a memory of objects
    ([forward_obj]), where tensors and BoxLists are passed by reference.
    The first carries the functional properties, the second the one about
    mutation; [_targets_obj_refines] relates the two.

    Conventions.
    - Python exceptions are values of [exn]; a computation that may raise
      returns a [result].
    - Floating-point numbers are kept abstract (class [Scalar]): the code
      only moves them around, converts image extents to them and adds the
      loss components, and nothing is assumed of their addition. [float32]
      is the instance at the numbers of the program.
    - torchvision (the ResNet family, [FasterRCNN], [BackboneWithFPN]) is an
      external collaborator and enters as a parameter. *)

From Stdlib Require Import ZArith String List Permutation SpecFloat.
From stdpp Require Import base tactics option list strings gmap.

Open Scope string_scope.
Open Scope Z_scope.
Open Scope list_scope.

(** ** Exceptions and results *)

Inductive exn (E : Type) : Type :=
| TypeError               (* iteration over a 0-d tensor *)
| ValueError              (* wrong number of values to unpack *)
| IndexError              (* tuple index out of range *)
| KeyError (k : string)   (* missing dictionary key *)
| Collaborator (e : E).   (* raised inside torchvision *)

Arguments TypeError {E}.
Arguments ValueError {E}.
Arguments IndexError {E}.
Arguments KeyError {E} k.
Arguments Collaborator {E} e.

Inductive result (E A : Type) : Type :=
| Ok (a : A)
| Raise (e : exn E).

Arguments Ok {E A} a.
Arguments Raise {E A} e.

Definition result_bind {E A B} (f : A → result E B) (m : result E A)
  : result E B :=
  match m with
  | Ok a => f a
  | Raise e => Raise e
  end.

#[global] Instance result_mret {E} : MRet (result E) := λ A a, Ok a.
#[global] Instance result_mbind {E} : MBind (result E) := λ A B, result_bind.

(** [for ... in ...] with a body that may raise: left to right, stopping at
    the first exception. *)
Fixpoint for_each {E A B} (f : A → result E B) (l : list A)
  : result E (list B) :=
  match l with
  | [] => Ok []
  | a :: l' =>
      b ← f a;
      bs ← for_each f l';
      mret (b :: bs)
  end.

(** Python's [zip] stops at the shorter argument; so does stdpp's [zip],
    which stands for it below. *)

(** ** Computations over a state *)

(** A computation that reads and writes a state [S] and may raise; the
    state is kept when it does. *)
Definition ST (S E A : Type) : Type := S → result E A * S.

Definition ST_ret {S E A} (a : A) : ST S E A := λ s, (Ok a, s).

Definition ST_bind {S E A B} (f : A → ST S E B) (m : ST S E A) : ST S E B :=
  λ s, match m s with
       | (Ok a, s') => f a s'
       | (Raise e, s') => (Raise e, s')
       end.

#[global] Instance ST_mret {S E} : MRet (ST S E) := @ST_ret S E.
#[global] Instance ST_mbind {S E} : MBind (ST S E) := @ST_bind S E.

(** A computation that only raises or returns. *)
Definition lift {S E A} (r : result E A) : ST S E A := λ s, (r, s).

(** A loop whose body works on the state. *)
Fixpoint for_each_st {S E A B} (f : A → ST S E B) (l : list A)
  : ST S E (list B) :=
  match l with
  | [] => mret []
  | a :: l' =>
      b ← f a;
      bs ← for_each_st f l';
      mret (b :: bs)
  end.

(** ** Scalars *)

(** The float type of tensors. [of_nat] is the conversion that
    [torch.tensor([[0., 0, h, w]])] applies to the integers [h] and [w] and
    that [0 + t] applies to the integer [0] that [sum] starts from. *)
Class Scalar (F : Type) := {
  of_nat : nat → F;
  fadd : F → F → F
}.

#[global] Instance Z_Scalar : Scalar Z := {| of_nat := Z.of_nat; fadd := Z.add |}.

(** The numbers of the program: IEEE 754 binary32, the [float32] of torch,
    as the Standard Library specifies it (24 bits of precision, exponents
    up to 128, rounding to nearest even). *)
Definition float32 : Type := spec_float.

Definition f32 (z : Z) : float32 := binary_normalize 24 128 z 0 false.

#[global] Instance float32_Scalar : Scalar float32 :=
  {| of_nat := λ n, f32 (Z.of_nat n); fadd := SFadd 24 128 |}.

(** ** Tensors *)

Section Tensors.
Context {F : Type}.

(** A dense tensor: its shape and its elements by multi-index. *)
Record Tensor := mkTensor {
  shape : list nat;
  data : list nat → F
}.

(** [torch.empty(shape)]: a tensor over uninitialised memory; [mem] is
    whatever the allocator hands out. *)
Definition torch_empty (mem : list nat → F) (shp : list nat) : Tensor :=
  {| shape := shp; data := mem |}.

(** [torch.zeros(shape)], for comparison. *)
Definition torch_zeros `{Scalar F} (shp : list nat) : Tensor :=
  {| shape := shp; data := λ _, of_nat 0 |}.

(** [t[i]] along the first dimension. *)
Definition select (t : Tensor) (i : nat) : Tensor :=
  {| shape := tail (shape t); data := λ idx, data t (i :: idx) |}.

(** [iter(t)]: the slices along the first dimension; a 0-d tensor is not
    iterable. *)
Definition tensor_iter {E} (t : Tensor) : result E (list Tensor) :=
  match shape t with
  | [] => Raise TypeError
  | n :: _ => Ok (map (select t) (seq 0 n))
  end.

(** [h, w = x.shape[1:]] *)
Definition unpack_hw {E} (x : Tensor) : result E (nat * nat) :=
  match tail (shape x) with
  | [h; w] => Ok (h, w)
  | _ => Raise ValueError
  end.

(** [output.shape[1]] *)
Definition shape_1 {E} (t : Tensor) : result E nat :=
  match shape t !! 1%nat with
  | Some c => Ok c
  | None => Raise IndexError
  end.
End Tensors.

Arguments Tensor F : clear implicits.

(** ** The BoxList container *)

Section BoxLists.
Context {F : Type}.

(** One box: four coordinates, in one of the two orderings. *)
Definition Box : Type := F * F * F * F.

(** Modelled from the spec: the module
    [rastervision.backend.torch_utils.boxlist] is not part of the sources
    at hand. A BoxList is an ordered sequence of boxes plus per-box field
    arrays, of which [labels] (integer class ids) and the optional
    [scores] are recognised. *)
Record BoxList := mkBoxList {
  boxes : list Box;
  labels : list Z;
  scores : option (list F)
}.

(** Modelled from the spec: exchanging the min-row/min-col/max-row/max-col
    ordering with the min-col/min-row/max-col/max-row one swaps the
    coordinates of each corner. *)
Definition swap_order (b : Box) : Box :=
  let '(c0, c1, c2, c3) := b in (c1, c0, c3, c2).

(** Modelled from the spec: conversion of a BoxList to the detector's
    ordering; a new BoxList with the same fields. *)
Definition xyxy (bl : BoxList) : BoxList :=
  {| boxes := map swap_order (boxes bl);
     labels := labels bl;
     scores := scores bl |}.

(** Modelled from the spec: conversion of a BoxList to the harness's
    ordering; a new BoxList with the same fields. *)
Definition yxyx (bl : BoxList) : BoxList :=
  {| boxes := map swap_order (boxes bl);
     labels := labels bl;
     scores := scores bl |}.

(** Boolean-mask indexing [t[mask]]: the rows whose mask entry is set, in
    order. torch raises an [IndexError] when the mask and the array differ
    in length; this function then stops at the shorter of the two, and the
    statements about the inference branch keep to arrays of the length of
    the mask. *)
Fixpoint mask_select {A} (mask : list bool) (l : list A) : list A :=
  match mask, l with
  | m :: mask', a :: l' =>
      if m then a :: mask_select mask' l' else mask_select mask' l'
  | _, _ => []
  end.

(** Modelled from the spec: filtering by a boolean mask over the boxes;
    a new BoxList with the same field names and the kept rows, in
    order. *)
Definition ind_filter (inds : list bool) (bl : BoxList) : BoxList :=
  {| boxes := mask_select inds (boxes bl);
     labels := mask_select inds (labels bl);
     scores := mask_select inds <$> scores bl |}.

(** The container's invariant: every field array is as long as the box
    sequence. *)
Definition boxlist_wf (bl : BoxList) : Prop :=
  length (labels bl) = length (boxes bl) ∧
  ∀ s, scores bl = Some s → length s = length (boxes bl).
End BoxLists.

Arguments Box F : clear implicits.
Arguments BoxList F : clear implicits.

(** ** The wrapped detector *)

Section Detector.
Context {F : Type}.

(** A converted target, [{'boxes': ..., 'labels': ...}]. *)
Record Target := mkTarget {
  target_boxes : list (Box F);
  target_labels : list Z
}.

(** A per-image detection, [{'boxes': ..., 'labels': ..., 'scores': ...}]. *)
Record Detection := mkDetection {
  out_boxes : list (Box F);
  out_labels : list Z;
  out_scores : list F
}.

(** A Python dict of losses: keys in insertion order. *)
Definition LossDict : Type := list (string * F).

(** torchvision's [FasterRCNN] as [forward] uses it: called with targets
    it answers with a dict of losses, called without them with one
    detection per image; either call may raise an error [E] of its
    own. *)
Record FasterRCNN (E : Type) := mkFasterRCNN {
  call_with_targets : Tensor F → list Target → result E LossDict;
  call : Tensor F → result E (list Detection)
}.
End Detector.

Arguments Target F : clear implicits.
Arguments Detection F : clear implicits.
Arguments LossDict F : clear implicits.
Arguments FasterRCNN F E : clear implicits.
Arguments call_with_targets {F E} _ _ _.
Arguments call {F E} _ _.

(** ** Python dicts as association lists *)

Section Dicts.
Context {V : Type}.

(** [d[k]] as a lookup. *)
Fixpoint dict_get (k : string) (d : list (string * V)) : option V :=
  match d with
  | [] => None
  | (k', v) :: d' => if String.eqb k k' then Some v else dict_get k d'
  end.

(** [d[k] = v]: overwrite in place, or append a new key. *)
Fixpoint dict_set (k : string) (v : V) (d : list (string * V))
  : list (string * V) :=
  match d with
  | [] => [(k, v)]
  | (k', v') :: d' =>
      if String.eqb k k' then (k', v) :: d' else (k', v') :: dict_set k v d'
  end.

Definition keys (d : list (string * V)) : list string := map fst d.
Definition values (d : list (string * V)) : list V := map snd d.
End Dicts.

(** ** MyFasterRCNN *)

Section MyFasterRCNN.
Context {F : Type} `{Scalar F} {E : Type}.

(** [self.subloss_names] *)
Definition subloss_names : list string :=
  ["total_loss"; "loss_box_reg"; "loss_classifier"; "loss_objectness";
   "loss_rpn_box_reg"].

(** The components that the detector reports. *)
Definition component_names : list string :=
  ["loss_box_reg"; "loss_classifier"; "loss_objectness";
   "loss_rpn_box_reg"].

(** [if targets:] - [None] and the empty list are both false. *)
Definition truthy {A} (targets : option (list A)) : bool :=
  match targets with
  | None => false
  | Some [] => false
  | Some (_ :: _) => true
  end.

(** [torch.tensor([[0., 0, h, w]])] *)
Definition bogus_box (h w : nat) : Box F :=
  (of_nat 0, of_nat 0, of_nat h, of_nat w).

(** The body of the loop over [zip(input, targets)]: the BoxList [bl]
    built for one image [x] and its target [y]. *)
Definition add_bogus (xy : Tensor F * BoxList F) : result E (BoxList F) :=
  let '(x, y) := xy in
  '(h, w) ← unpack_hw x;
  let boxes' := boxes y ++ [bogus_box h w] in
  let labels' := labels y ++ [0] in
  mret (mkBoxList boxes' labels' None).

(** [new_targets] after the loop. *)
Definition new_targets (input : Tensor F) (targets : list (BoxList F))
  : result E (list (BoxList F)) :=
  xs ← tensor_iter input;
  for_each add_bogus (zip xs targets).

(** [{'boxes': bl.boxes, 'labels': bl.get_field('labels')}] *)
Definition to_dict (bl : BoxList F) : Target F :=
  {| target_boxes := boxes bl; target_labels := labels bl |}.

(** [_targets] as handed to the detector. *)
Definition _targets (targets : list (BoxList F)) : list (Target F) :=
  map to_dict (map xyxy targets).

(** [sum(l)]: starts from the integer [0] and adds from the left. *)
Definition py_sum (l : list F) : F := fold_left fadd l (of_nat 0).

(** [loss_dict['total_loss'] = sum(list(loss_dict.values()))] *)
Definition add_total_loss (loss_dict : LossDict F) : LossDict F :=
  dict_set "total_loss" (py_sum (values loss_dict)) loss_dict.

(** [BoxList(_out['boxes'], labels=_out['labels'],
    scores=_out['scores']).yxyx()] *)
Definition to_boxlist (_out : Detection F) : BoxList F :=
  yxyx (mkBoxList (out_boxes _out) (out_labels _out)
          (Some (out_scores _out))).

(** [labels != 0], elementwise. *)
Definition non_zero_inds (labels : list Z) : list bool :=
  map (λ l, negb (l =? 0)) labels.

(** The body of the loop that removes the bogus background boxes. *)
Definition remove_bogus (bl : BoxList F) : BoxList F :=
  ind_filter (non_zero_inds (labels bl)) bl.

(** What [forward] returns: the dict of losses or the list of
    BoxLists. *)
Inductive Output :=
| Losses (loss_dict : LossDict F)
| Predictions (new_boxlists : list (BoxList F)).

(** [MyFasterRCNN.forward(self, input, targets=None)]; [model] is
    [self.model]. *)
Definition forward (model : FasterRCNN F E) (input : Tensor F)
    (targets : option (list (BoxList F))) : result E Output :=
  if truthy targets then
    targets' ← new_targets input (default [] targets);
    loss_dict ← call_with_targets model input (_targets targets');
    mret (Losses (add_total_loss loss_dict))
  else
    out ← call model input;
    let boxlists := map to_boxlist out in
    mret (Predictions (map remove_bogus boxlists)).
End MyFasterRCNN.

(** ** The backbone *)

(** [s in name] on strings. *)
Fixpoint str_in (s name : string) : bool :=
  String.prefix s name ||
  match name with
  | EmptyString => false
  | String _ name' => str_in s name'
  end.

(** The four stages of a residual network. *)
Inductive stage := layer1 | layer2 | layer3 | layer4.

#[global] Instance stage_eq_dec : EqDecision stage.
Proof. solve_decision. Defined.

(** A dict [out] of channel counts, and the heap of such dicts: a dict
    lives at its index, and a new one is put at the end. *)
Abbreviation Dict := (gmap string nat).
Abbreviation Heap := (list (gmap string nat)).

(** The closure [save_output] that [make_save_output(layer_name)] returns:
    it holds on to the dict [out] of the call of [get_out_channels] that
    made it, and to [layer_name]. *)
Record save_output := mk_save_output {
  hook_out : nat;
  hook_layer_name : string
}.

Section Backbone.
Context {F : Type} {E : Type}.

(** torchvision's ResNet as the builder uses it: the parameters by name
    with their [requires_grad] flag, the forward hooks registered on each
    stage (oldest first), and what its parts compute. [stem] is
    conv1/bn1/relu/maxpool and [head] is avgpool/flatten/fc. *)
Record ResNet := mkResNet {
  named_parameters : list (string * bool);
  forward_hooks : stage → list save_output;
  stem : Tensor F → result E (Tensor F);
  layer : stage → Tensor F → result E (Tensor F);
  head : Tensor F → result E (Tensor F)
}.

(** Computations over the network and the heap of dicts. *)
Local Abbreviation M := (ST (ResNet * Heap) E).

(** [out = {}] *)
Definition new_dict : M nat :=
  λ '(net, heap), (Ok (length heap), (net, heap ++ [∅])).

(** [out[k] = v] for the dict at address [a]. *)
Definition dict_store (a : nat) (k : string) (v : nat) : M unit :=
  λ '(net, heap), (Ok (), (net, alter (insert k v) a heap)).

(** [out[k]] for the dict at address [a]. *)
Definition dict_load (a : nat) (k : string) : M nat :=
  λ '(net, heap),
    match heap !! a ≫= (.!! k) with
    | Some v => (Ok v, (net, heap))
    | None => (Raise (KeyError k), (net, heap))
    end.

(** The network with one more hook on the stage [s]. *)
Definition add_hook (net : ResNet) (s : stage) (hook : save_output) : ResNet :=
  {| named_parameters := named_parameters net;
     forward_hooks := λ s', if decide (s' = s) then forward_hooks net s' ++ [hook]
                            else forward_hooks net s';
     stem := stem net;
     layer := layer net;
     head := head net |}.

(** [module.register_forward_hook(hook)] for the stage [s]. *)
Definition register_forward_hook (s : stage) (hook : save_output) : M unit :=
  λ '(net, heap), (Ok (), (add_hook net s hook, heap)).

(** The call of one hook: [out[layer_name] = output.shape[1]]. It returns
    [None], so the output of the stage stays as it is. *)
Definition call_hook (hook : save_output) (output : Tensor F) : M unit :=
  c ← lift (shape_1 output);
  dict_store (hook_out hook) (hook_layer_name hook) c.

Fixpoint call_hooks (hooks : list save_output) (output : Tensor F) : M unit :=
  match hooks with
  | [] => mret ()
  | hook :: hooks' => call_hook hook output;; call_hooks hooks' output
  end.

(** [model.layerN(x)]: the stage itself, then its forward hooks. *)
Definition call_stage (s : stage) (x : Tensor F) : M (Tensor F) :=
  λ '(net, heap),
    (output ← lift (layer net s x);
     call_hooks (forward_hooks net s) output;;
     mret output) (net, heap).

(** [model(x)], the forward pass of the residual network. *)
Definition call_model (x : Tensor F) : M (Tensor F) :=
  λ '(net, heap),
    (x0 ← lift (stem net x);
     x1 ← call_stage layer1 x0;
     x2 ← call_stage layer2 x1;
     x3 ← call_stage layer3 x2;
     x4 ← call_stage layer4 x3;
     lift (head net x4)) (net, heap).

(** [make_save_output(layer_name)] inside a call whose dict is [out]. *)
Definition make_save_output (out : nat) (layer_name : string) : save_output :=
  {| hook_out := out; hook_layer_name := layer_name |}.

(** [get_out_channels(model)]; [mem] is the content of the memory that
    [torch.empty] returns. *)
Definition get_out_channels (mem : list nat → F) : M (list nat) :=
  out ← new_dict;
  register_forward_hook layer1 (make_save_output out "layer1");;
  register_forward_hook layer2 (make_save_output out "layer2");;
  register_forward_hook layer3 (make_save_output out "layer3");;
  register_forward_hook layer4 (make_save_output out "layer4");;
  call_model (torch_empty mem [1; 3; 128; 128]%nat);;
  c1 ← dict_load out "layer1";
  c2 ← dict_load out "layer2";
  c3 ← dict_load out "layer3";
  c4 ← dict_load out "layer4";
  mret [c1; c2; c3; c4].

(** The test of the freezing loop on a parameter name. *)
Definition frozen_name (name : string) : bool :=
  negb (str_in "layer2" name) && negb (str_in "layer3" name) &&
  negb (str_in "layer4" name).

(** The freezing loop over [backbone.named_parameters()]:
    [parameter.requires_grad_(False)] where the test holds. *)
Definition freeze_layers (params : list (string * bool))
  : list (string * bool) :=
  map (λ '(name, requires_grad),
         if frozen_name name then (name, false) else (name, requires_grad))
      params.

Definition freeze_net (net : ResNet) : ResNet :=
  {| named_parameters := freeze_layers (named_parameters net);
     forward_hooks := forward_hooks net;
     stem := stem net;
     layer := layer net;
     head := head net |}.

Definition freeze : M unit :=
  λ '(net, heap), (Ok (), (freeze_net net, heap)).

(** torchvision's [BackboneWithFPN(backbone, return_layers,
    in_channels_list, out_channels)], by its arguments. *)
Record BackboneWithFPN := mkBackboneWithFPN {
  body : ResNet;
  return_layers : list (string * nat);
  in_channels_list : list nat;
  out_channels : nat
}.

(** [resnet_fpn_backbone(backbone_name, pretrained)]. [resnet_dict] is
    [resnet.__dict__], each constructor already given the frozen batch
    norm; the new network enters the state, which holds the heap. *)
Definition resnet_fpn_backbone
    (resnet_dict : string → option (bool → result E ResNet))
    (mem : list nat → F) (backbone_name : string) (pretrained : bool)
    (heap : Heap) : result E BackboneWithFPN * Heap :=
  match resnet_dict backbone_name with
  | None => (Raise (KeyError backbone_name), heap)
  | Some constructor =>
      match constructor pretrained with
      | Raise e => (Raise e, heap)
      | Ok backbone =>
          match (freeze;; get_out_channels mem) (backbone, heap) with
          | (Raise e, (_, heap')) => (Raise e, heap')
          | (Ok in_channels_list, (backbone', heap')) =>
              (Ok (mkBackboneWithFPN backbone'
                     [("layer1", 0%nat); ("layer2", 1%nat);
                      ("layer3", 2%nat); ("layer4", 3%nat)]
                     in_channels_list 256),
               heap')
          end
      end
  end.
End Backbone.

Arguments ResNet F E : clear implicits.
Arguments BackboneWithFPN F E : clear implicits.

(** Computations over the network and the heap of dicts. *)
Abbreviation M F E := (ST (ResNet F E * Heap) E).

(** ** Objects and aliasing *)

(** [forward] once more, now with the tensors and the BoxLists as objects
    in memory that are passed by reference, so that it shows which objects
    a call creates and which it could write to. *)

Section Objects.
Context {F : Type} `{Scalar F} {E : Type}.

(** An object in memory: a tensor of boxes, of labels or of scores, or a
    BoxList, whose attributes are the addresses of its tensors. *)
Inductive object :=
| BoxTensor (bs : list (Box F))
| LabelTensor (ls : list Z)
| ScoreTensor (ss : list F)
| BoxListObject (boxes_at labels_at : nat) (scores_at : option nat).

(** Computations over the memory: an object lives at its index, and a new
    object is put at the end. *)
Local Abbreviation Mem := (ST (list object) E).

Definition alloc (o : object) : Mem nat :=
  λ σ, (Ok (length σ), σ ++ [o]).

Definition load_boxes (a : nat) : Mem (list (Box F)) :=
  λ σ, match σ !! a with
       | Some (BoxTensor bs) => (Ok bs, σ)
       | _ => (Raise TypeError, σ)
       end.

Definition load_labels (a : nat) : Mem (list Z) :=
  λ σ, match σ !! a with
       | Some (LabelTensor ls) => (Ok ls, σ)
       | _ => (Raise TypeError, σ)
       end.

Definition load_scores (a : nat) : Mem (list F) :=
  λ σ, match σ !! a with
       | Some (ScoreTensor ss) => (Ok ss, σ)
       | _ => (Raise TypeError, σ)
       end.

(** The attributes of the BoxList at [a]: [bl.boxes], [bl.get_field('labels')]
    and [bl.get_field('scores')]. *)
Definition load_boxlist (a : nat) : Mem (nat * nat * option nat) :=
  λ σ, match σ !! a with
       | Some (BoxListObject b l s) => (Ok (b, l, s), σ)
       | _ => (Raise TypeError, σ)
       end.

(** Modelled from the spec: conversion between the orderings gives a new
    BoxList over a new tensor of boxes. The spec does not say whether the
    field arrays are copied; the new BoxList shares them here, which is the
    case that allows more aliasing. *)
Definition xyxy_obj (bl : nat) : Mem nat :=
  '(b, l, s) ← load_boxlist bl;
  bs ← load_boxes b;
  b' ← alloc (BoxTensor (map swap_order bs));
  alloc (BoxListObject b' l s).

Definition yxyx_obj (bl : nat) : Mem nat := xyxy_obj bl.

(** Modelled from the spec: filtering by a mask gives a new BoxList over
    new tensors of the kept rows. *)
Definition ind_filter_obj (inds : list bool) (bl : nat) : Mem nat :=
  '(b, l, s) ← load_boxlist bl;
  bs ← load_boxes b;
  b' ← alloc (BoxTensor (mask_select inds bs));
  ls ← load_labels l;
  l' ← alloc (LabelTensor (mask_select inds ls));
  s' ← match s with
       | None => mret None
       | Some s =>
           ss ← load_scores s;
           s' ← alloc (ScoreTensor (mask_select inds ss));
           mret (Some s')
       end;
  alloc (BoxListObject b' l' s').

(** The detector over the memory: it is handed the addresses of the
    tensors of each target, and hands back the addresses of the tensors of
    each detection. *)
Record FasterRCNN_obj := mkFasterRCNN_obj {
  call_with_targets_obj : Tensor F → list (nat * nat) → Mem (LossDict F);
  call_obj : Tensor F → Mem (list (nat * nat * nat))
}.

(** The body of the loop over [zip(input, targets)]: [torch.cat] makes a
    new tensor, and [BoxList(boxes, labels=labels)] a new BoxList. *)
Definition add_bogus_obj (xy : Tensor F * nat) : Mem nat :=
  let '(x, y) := xy in
  '(h, w) ← lift (unpack_hw x);
  '(yb, yl, _) ← load_boxlist y;
  bs ← load_boxes yb;
  boxes' ← alloc (BoxTensor (bs ++ [bogus_box h w]));
  ls ← load_labels yl;
  labels' ← alloc (LabelTensor (ls ++ [0]));
  alloc (BoxListObject boxes' labels' None).

(** [{'boxes': bl.boxes, 'labels': bl.get_field('labels')}] *)
Definition to_dict_obj (bl : nat) : Mem (nat * nat) :=
  '(b, l, _) ← load_boxlist bl;
  mret (b, l).

(** [BoxList(_out['boxes'], labels=_out['labels'],
    scores=_out['scores']).yxyx()] *)
Definition to_boxlist_obj (_out : nat * nat * nat) : Mem nat :=
  let '(b, l, s) := _out in
  bl ← alloc (BoxListObject b l (Some s));
  yxyx_obj bl.

(** The body of the loop that removes the bogus background boxes. *)
Definition remove_bogus_obj (bl : nat) : Mem nat :=
  '(_, l, _) ← load_boxlist bl;
  labels ← load_labels l;
  ind_filter_obj (non_zero_inds labels) bl.

(** What [forward] returns: the dict of losses or the addresses of the
    BoxLists. *)
Inductive Output_obj :=
| Losses_obj (loss_dict : LossDict F)
| Predictions_obj (new_boxlists : list nat).

(** The training branch up to the call of the detector: the loop over
    [zip(input, targets)] and the two comprehensions that give
    [_targets]. *)
Definition _targets_obj (input : Tensor F) (targets : list nat)
  : Mem (list (nat * nat)) :=
  xs ← lift (tensor_iter input);
  new_targets ← for_each_st add_bogus_obj (zip xs targets);
  _targets ← for_each_st xyxy_obj new_targets;
  for_each_st to_dict_obj _targets.

(** [MyFasterRCNN.forward] over the memory; [targets] are the addresses of
    the caller's BoxLists. *)
Definition forward_obj (model : FasterRCNN_obj) (input : Tensor F)
    (targets : option (list nat)) : Mem Output_obj :=
  if truthy targets then
    _targets ← _targets_obj input (default [] targets);
    loss_dict ← call_with_targets_obj model input _targets;
    mret (Losses_obj (add_total_loss loss_dict))
  else
    out ← call_obj model input;
    boxlists ← for_each_st to_boxlist_obj out;
    new_boxlists ← for_each_st remove_bogus_obj boxlists;
    mret (Predictions_obj new_boxlists).

(** The BoxList that the object at [a] stands for. *)
Definition read_boxlist (σ : list object) (a : nat) : option (BoxList F) :=
  match σ !! a with
  | Some (BoxListObject b l s) =>
      match σ !! b, σ !! l with
      | Some (BoxTensor bs), Some (LabelTensor ls) =>
          match s with
          | None => Some (mkBoxList bs ls None)
          | Some s =>
              match σ !! s with
              | Some (ScoreTensor ss) => Some (mkBoxList bs ls (Some ss))
              | _ => None
              end
          end
      | _, _ => None
      end
  | _ => None
  end.

(** The target that a pair of addresses handed to the detector stands
    for. *)
Definition read_target (σ : list object) (t : nat * nat) : option (Target F) :=
  match σ !! t.1, σ !! t.2 with
  | Some (BoxTensor bs), Some (LabelTensor ls) => Some (mkTarget bs ls)
  | _, _ => None
  end.

(** The detector writes to no object but the tensors that it is handed. *)
Definition writes_only_its_arguments (model : FasterRCNN_obj) : Prop :=
  (∀ input targets σ a o,
     σ !! a = Some o →
     (∀ t, t ∈ targets → a ≠ t.1 ∧ a ≠ t.2) →
     (call_with_targets_obj model input targets σ).2 !! a = Some o) ∧
  (∀ input σ a o,
     σ !! a = Some o →
     (call_obj model input σ).2 !! a = Some o).

(** The BoxList at [bl] and its tensors of boxes and of labels are at
    addresses from [n] on. *)
Definition fresh_boxlist (n : nat) (bl : nat) (σ : list object) : Prop :=
  ∃ b l s, σ !! bl = Some (BoxListObject b l s) ∧
    (n ≤ bl)%nat ∧ (n ≤ b)%nat ∧ (n ≤ l)%nat.

(** A computation [m] started in [σ] only adds objects, and what it
    returns satisfies [Q] in the memory that it leaves. *)
Definition adds {A} (m : Mem A) (σ : list object)
    (Q : A → list object → Prop) : Prop :=
  σ `prefix_of` (m σ).2 ∧ ∀ a, (m σ).1 = Ok a → Q a (m σ).2.

(** A computation [m] started in [σ] returns, having only added objects,
    and what it returns satisfies [Q] in the memory that it leaves. *)
Definition returns {A} (m : Mem A) (σ : list object)
    (Q : A → list object → Prop) : Prop :=
  ∃ a σ', m σ = (Ok a, σ') ∧ σ `prefix_of` σ' ∧ Q a σ'.
End Objects.

Arguments object F : clear implicits.
Arguments FasterRCNN_obj F E : clear implicits.
Arguments Output_obj F : clear implicits.

(** ** Vocabulary of the statements *)

Section Vocabulary.
Context {F : Type} `{Scalar F}.

(** The target [y] of an image of extent [h] by [w] with the bogus box and
    its label at the end. *)
Definition with_bogus (h w : nat) (y : BoxList F) : BoxList F :=
  {| boxes := boxes y ++ [bogus_box h w];
     labels := labels y ++ [0];
     scores := None |}.
End Vocabulary.

Section Backbone_vocabulary.
Context {F : Type} {E : Type}.

(** The name under which [get_out_channels] records a stage. *)
Definition stage_name (s : stage) : string :=
  match s with
  | layer1 => "layer1"
  | layer2 => "layer2"
  | layer3 => "layer3"
  | layer4 => "layer4"
  end.

(** The output of the stage [s] in a forward pass on [x], as the network
    computes it when nothing observes it. *)
Definition stage_output (net : ResNet F E) (x : Tensor F) (s : stage)
  : result E (Tensor F) :=
  let x1 := stem net x ≫= layer net layer1 in
  let x2 := x1 ≫= layer net layer2 in
  let x3 := x2 ≫= layer net layer3 in
  match s with
  | layer1 => x1
  | layer2 => x2
  | layer3 => x3
  | layer4 => x3 ≫= layer net layer4
  end.

(** The forward pass of the network when nothing observes it. *)
Definition plain_forward (net : ResNet F E) (x : Tensor F)
  : result E (Tensor F) :=
  stage_output net x layer4 ≫= head net.

(** Every hook of the network refers to a dict that exists. *)
Definition hooks_wf (net : ResNet F E) (heap : Heap) : Prop :=
  ∀ s hook, hook ∈ forward_hooks net s → (hook_out hook < length heap)%nat.

(** The heap after the hooks [hooks] have each stored the channel count
    [c]. *)
Definition hooks_heap (hooks : list save_output) (c : nat) (heap : Heap)
  : Heap :=
  foldl (λ heap hook,
           alter (insert (hook_layer_name hook) c) (hook_out hook) heap)
        heap hooks.

(** The network once [get_out_channels] has registered its four hooks,
    which store into the dict at [out]. *)
Definition observed (net : ResNet F E) (out : nat) : ResNet F E :=
  add_hook
    (add_hook
       (add_hook
          (add_hook net layer1 (make_save_output out "layer1"))
          layer2 (make_save_output out "layer2"))
       layer3 (make_save_output out "layer3"))
    layer4 (make_save_output out "layer4").

(** A computation that leaves the network as it is. *)
Definition keeps_net {A} (m : M F E A) : Prop :=
  ∀ net heap, (m (net, heap)).2.1 = net.

(** The input of the forward pass of [get_out_channels]. *)
Definition dummy_input (mem : list nat → F) : Tensor F :=
  torch_empty mem [1; 3; 128; 128]%nat.
End Backbone_vocabulary.

(** ** Construction of the adapter *)

Section Construction.
Context {F : Type} {E : Type}.

(** A [MyFasterRCNN] once constructed: [self.model] and
    [self.subloss_names]. *)
Record MyFasterRCNN := mkMyFasterRCNN {
  self_model : FasterRCNN F E;
  self_subloss_names : list string
}.

(** [MyFasterRCNN.__init__(self, backbone_arch, num_labels, img_sz,
    pretrained)]. [faster_rcnn] is torchvision's constructor
    [FasterRCNN(backbone, num_labels, min_size=..., max_size=...)]. *)
Definition MyFasterRCNN_init
    (resnet_dict : string → option (bool → result E (ResNet F E)))
    (faster_rcnn : BackboneWithFPN F E → nat → nat → nat
                   → result E (FasterRCNN F E))
    (mem : list nat → F) (backbone_arch : string) (num_labels img_sz : nat)
    (pretrained : bool) (heap : Heap) : result E MyFasterRCNN * Heap :=
  match resnet_fpn_backbone resnet_dict mem backbone_arch pretrained heap with
  | (Raise e, heap') => (Raise e, heap')
  | (Ok backbone, heap') =>
      match faster_rcnn backbone num_labels img_sz img_sz with
      | Raise e => (Raise e, heap')
      | Ok model =>
          (Ok {| self_model := model; self_subloss_names := subloss_names |},
           heap')
      end
  end.

(** The dict at [a] holds something under the key [k]. *)
Definition has_key (heap : Heap) (a : nat) (k : string) : Prop :=
  ∃ d : Dict, heap !! a = Some d ∧ is_Some (d !! k).

(** Every stage of the network has a hook. *)
Definition every_stage_observed (net : ResNet F E) : Prop :=
  ∀ s, forward_hooks net s ≠ [].

(** The boxes, labels and scores of one image row by row. *)
Definition rows (bs : list (Box F)) (ls : list Z) (ss : list F)
  : list (Box F * Z * F) :=
  zip (zip bs ls) ss.
End Construction.

Arguments MyFasterRCNN F E : clear implicits.

Section Reading.
Context {F : Type}.

(** The detection that three addresses handed back by the detector stand
    for. *)
Definition read_detection (σ : list (object F)) (o : nat * nat * nat)
  : option (Detection F) :=
  match σ !! o.1.1, σ !! o.1.2, σ !! o.2 with
  | Some (BoxTensor bs), Some (LabelTensor ls), Some (ScoreTensor ss) =>
      Some (mkDetection bs ls ss)
  | _, _, _ => None
  end.
End Reading.

(** ** Concrete instances *)

Module Examples.
(** A batch of [n] images of extent [h] by [w], every element [v]. *)
Definition batch (n h w : nat) (v : Z) : Tensor Z :=
  {| shape := [n; 3; h; w]%nat; data := λ _, v |}.

(** A detector that insists on one target per image and otherwise
    answers with fixed losses, and with the same five boxes for each
    image. *)
Definition strict_detector : FasterRCNN Z string :=
  {| call_with_targets := λ input targets,
       match shape input with
       | n :: _ =>
           if decide (length targets = n)
           then Ok [("loss_classifier", 3); ("loss_box_reg", 5);
                    ("loss_objectness", 7); ("loss_rpn_box_reg", 11)]
           else Raise (Collaborator "batch size mismatch")
       | [] => Raise (Collaborator "bad input")
       end;
     call := λ input,
       match shape input with
       | n :: _ =>
           Ok (replicate n
                 {| out_boxes := [(1, 2, 3, 4); (0, 0, 9, 9); (2, 2, 5, 6);
                                  (0, 0, 8, 8); (4, 1, 7, 3)];
                    out_labels := [2; 0; 1; 0; 3];
                    out_scores := [90; 80; 70; 60; 50] |})
       | [] => Raise (Collaborator "bad input")
       end |}.

(** A detector with losses in [float32] whose sum depends on the order
    of the additions, in the order in which torchvision reports them, and
    a batch for it. *)
Definition float32_detector : FasterRCNN float32 string :=
  {| call_with_targets := λ input targets,
       Ok [("loss_classifier", f32 1); ("loss_box_reg", f32 1);
           ("loss_objectness", f32 16777216); ("loss_rpn_box_reg", f32 0)];
     call := λ input, Ok [] |}.

Definition float32_batch (n h w : nat) : Tensor float32 :=
  {| shape := [n; 3; h; w]%nat; data := λ _, f32 0 |}.

(** A detector that sees background everywhere. *)
Definition background_detector : FasterRCNN Z string :=
  {| call_with_targets := call_with_targets strict_detector;
     call := λ input,
       Ok [ {| out_boxes := [(0, 0, 9, 9); (0, 0, 8, 8)];
               out_labels := [0; 0];
               out_scores := [80; 60] |} ] |}.

(** Ground truth with three boxes, and with none. *)
Definition three_boxes : BoxList Z :=
  {| boxes := [(1, 2, 3, 4); (2, 2, 5, 6); (4, 1, 7, 3)];
     labels := [2; 1; 3];
     scores := None |}.

Definition no_boxes : BoxList Z :=
  {| boxes := []; labels := []; scores := None |}.

(** A residual network in miniature: only the shapes are computed. The
    stem gives 64 channels at a quarter of the extent; each stage doubles
    the channels of the one before and, but for the first, halves the
    extent. *)
Definition stage_channels (s : stage) : nat :=
  match s with
  | layer1 => 64
  | layer2 => 128
  | layer3 => 256
  | layer4 => 512
  end%nat.

Definition stage_stride (s : stage) : nat :=
  match s with
  | layer1 => 1
  | _ => 2
  end%nat.

Definition toy_stem (x : Tensor Z) : result string (Tensor Z) :=
  match shape x with
  | [n; 3%nat; h; w] =>
      Ok {| shape := [n; 64; h / 4; w / 4]%nat; data := data x |}
  | _ => Raise (Collaborator "expected a batch of 3-channel images")
  end.

Definition toy_layer (s : stage) (x : Tensor Z) : result string (Tensor Z) :=
  match shape x with
  | [n; _; h; w] =>
      Ok {| shape := [n; stage_channels s; h / stage_stride s;
                      w / stage_stride s]%nat;
            data := data x |}
  | _ => Raise (Collaborator "expected a batch of feature maps")
  end.

Definition toy_head (x : Tensor Z) : result string (Tensor Z) :=
  match shape x with
  | n :: _ => Ok {| shape := [n; 1000]%nat; data := data x |}
  | [] => Raise (Collaborator "expected a batch of feature maps")
  end.

Definition toy_resnet : ResNet Z string :=
  {| named_parameters :=
       [("conv1.weight", true);
        ("layer1.0.conv1.weight", true); ("layer1.0.conv2.weight", true);
        ("layer2.0.conv1.weight", true); ("layer2.0.downsample.0.weight", true);
        ("layer3.0.conv1.weight", true);
        ("layer4.0.conv1.weight", true);
        ("fc.weight", true); ("fc.bias", true)];
     forward_hooks := λ _, [];
     stem := toy_stem;
     layer := toy_layer;
     head := toy_head |}.

(** The same network behind a stem that refuses an input whose first
    element is not zero. *)
Definition zero_only_resnet : ResNet Z string :=
  {| named_parameters := named_parameters toy_resnet;
     forward_hooks := λ _, [];
     stem := λ x, if decide (data x [0; 0; 0; 0]%nat = 0) then toy_stem x
                  else Raise (Collaborator "input is not zero");
     layer := toy_layer;
     head := toy_head |}.

(** [resnet.__dict__] with the one entry. *)
Definition toy_dict (name : string)
  : option (bool → result string (ResNet Z string)) :=
  if String.eqb name "resnet18" then Some (λ _, Ok toy_resnet) else None.

(** A detector over the memory that empties every tensor it is handed,
    and that puts the tensors of its one detection at the end of the
    memory. *)
Definition clobbering_detector : FasterRCNN_obj Z string :=
  {| call_with_targets_obj := λ input targets σ,
       (Ok [("loss_classifier", 3); ("loss_box_reg", 5);
            ("loss_objectness", 7); ("loss_rpn_box_reg", 11)],
        foldr (λ t σ, <[t.1 := BoxTensor []]> (<[t.2 := LabelTensor []]> σ))
          σ targets);
     call_obj := λ input σ,
       (Ok [(length σ, S (length σ), S (S (length σ)))],
        σ ++ [BoxTensor [(1, 2, 3, 4); (0, 0, 9, 9)];
              LabelTensor [2; 0];
              ScoreTensor [90; 80]]) |}.

(** The detector over values that answers as [clobbering_detector]
    does. *)
Definition lenient_detector : FasterRCNN Z string :=
  {| call_with_targets := λ input targets,
       Ok [("loss_classifier", 3); ("loss_box_reg", 5);
           ("loss_objectness", 7); ("loss_rpn_box_reg", 11)];
     call := λ input,
       Ok [ {| out_boxes := [(1, 2, 3, 4); (0, 0, 9, 9)];
               out_labels := [2; 0];
               out_scores := [90; 80] |} ] |}.

(** A memory with the two BoxLists [three_boxes] (at 2) and [no_boxes]
    (at 5). *)
Definition caller_memory : list (object Z) :=
  [BoxTensor (boxes three_boxes); LabelTensor (labels three_boxes);
   BoxListObject 0 1 None;
   BoxTensor []; LabelTensor [];
   BoxListObject 3 4 None].

(** torchvision's constructor of the detector in miniature: it keeps
    nothing of the backbone and refuses a model without classes. *)
Definition toy_faster_rcnn (backbone : BackboneWithFPN Z string)
    (num_labels min_size max_size : nat)
  : result string (FasterRCNN Z string) :=
  if decide (num_labels = 0%nat) then Raise (Collaborator "no classes")
  else Ok strict_detector.

Definition zero_only_dict (name : string)
  : option (bool → result string (ResNet Z string)) :=
  if String.eqb name "resnet18" then Some (λ _, Ok zero_only_resnet) else None.
End Examples.

(** * Properties *)

(** ** Results and loops *)

Section Loops.
Context {E A B : Type}.
Implicit Types (f : A → result E B) (l : list A).

Lemma for_each_cons f a l :
  for_each f (a :: l) = (b ← f a; bs ← for_each f l; mret (b :: bs)).
Proof. done. Qed.

Lemma for_each_Ok f l (g : A → B) :
  (∀ a, a ∈ l → f a = Ok (g a)) → for_each f l = Ok (map g l).
Proof.
  induction l as [|a l IH]; intros Hf; [done|].
  cbn. rewrite Hf by left. cbn. rewrite IH; [done|].
  intros a' Ha'. apply Hf. by right.
Qed.
End Loops.

Section State_lemmas.
Context {S E : Type}.

Lemma ST_bind_Ok {A B} (m : ST S E A) (f : A → ST S E B) st a st' :
  m st = (Ok a, st') → (m ≫= f) st = f a st'.
Proof. intros Hm. unfold mbind, ST_mbind, ST_bind. by rewrite Hm. Qed.

Lemma ST_bind_Raise {A B} (m : ST S E A) (f : A → ST S E B) st e st' :
  m st = (Raise e, st') → (m ≫= f) st = (Raise e, st').
Proof. intros Hm. unfold mbind, ST_mbind, ST_bind. by rewrite Hm. Qed.

Lemma lift_spec {A} (r : result E A) (st : S) : lift r st = (r, st).
Proof. done. Qed.
End State_lemmas.

(** ** The orderings *)

Section Orderings.
Context {F : Type}.
Implicit Types (b : Box F) (bl : BoxList F).

Lemma swap_order_involutive b : swap_order (swap_order b) = b.
Proof. by destruct b as [[[c0 c1] c2] c3]. Qed.

Lemma map_swap_order_involutive (bs : list (Box F)) :
  map swap_order (map swap_order bs) = bs.
Proof.
  induction bs as [|b bs IH]; [done|].
  cbn [map]. by rewrite swap_order_involutive, IH.
Qed.

(** C9: converting the boxes of a BoxList from the harness ordering to the
    detector ordering ([xyxy]) and back ([yxyx]) gives the BoxList one
    started from, and so does the other way round: the two conversions are
    inverse to each other. *)
Theorem ordering_round_trip bl :
  yxyx (xyxy bl) = bl ∧ xyxy (yxyx bl) = bl.
Proof.
  destruct bl as [bs ls ss].
  unfold yxyx, xyxy; cbn.
  by rewrite map_swap_order_involutive.
Qed.
End Orderings.

(** ** The training branch *)

Section Training.
Context {F : Type} `{Scalar F} {E : Type}.
Implicit Types (model : FasterRCNN F E) (input x : Tensor F).
Implicit Types (y bl : BoxList F) (ys : list (BoxList F)).

Lemma tensor_iter_Ok input n rest :
  shape input = n :: rest →
  tensor_iter (E:=E) input = Ok (map (select input) (seq 0 n)).
Proof. intros Hs. unfold tensor_iter. by rewrite Hs. Qed.

Lemma unpack_hw_select input n c h w i :
  shape input = [n; c; h; w] →
  unpack_hw (E:=E) (select input i) = Ok (h, w).
Proof. intros Hs. unfold unpack_hw, select. cbn. by rewrite Hs. Qed.

Lemma add_bogus_Ok x y h w :
  unpack_hw (E:=E) x = Ok (h, w) →
  add_bogus (E:=E) (x, y) = Ok (with_bogus h w y).
Proof. intros Hx. unfold add_bogus. by rewrite Hx. Qed.

Lemma for_each_add_bogus (xs : list (Tensor F)) ys h w :
  (∀ x, x ∈ xs → unpack_hw (E:=E) x = Ok (h, w)) →
  for_each (E:=E) add_bogus (zip xs ys)
  = Ok (map (with_bogus h w) (take (length xs) ys)).
Proof.
  revert ys. induction xs as [|x xs IH]; intros ys Hxs; [done|].
  destruct ys as [|y ys]; [done|].
  change (zip (x :: xs) (y :: ys)) with ((x, y) :: zip xs ys).
  rewrite for_each_cons, (add_bogus_Ok x y h w) by (apply Hxs; left).
  rewrite IH; [done|].
  intros x' Hx'. apply Hxs. by right.
Qed.

(** What the loop over [zip(input, targets)] builds for a batch of [n]
    images of extent [h] by [w]. *)
Lemma new_targets_Ok input ys n c h w :
  shape input = [n; c; h; w] →
  new_targets (E:=E) input ys = Ok (map (with_bogus h w) (take n ys)).
Proof.
  intros Hs. unfold new_targets.
  rewrite (tensor_iter_Ok input n [c; h; w]) by done. cbn.
  rewrite (for_each_add_bogus _ ys h w).
  - by rewrite length_map, length_seq.
  - intros x Hx. apply list_elem_of_fmap in Hx as (i & -> & _).
    by eapply unpack_hw_select.
Qed.

Lemma forward_training model input y ys :
  forward model input (Some (y :: ys))
  = (targets' ← new_targets input (y :: ys);
     loss_dict ← call_with_targets model input (_targets targets');
     mret (Losses (add_total_loss loss_dict))).
Proof. done. Qed.



(** C7 (as amended): [forward] checks no lengths and recovers from nothing.
    For a batch of [n] images it pairs images and targets by position up to
    the shorter of the two, so that the detector is invoked with
    [min n (len targets)] targets - the targets beyond the [n]-th are
    dropped - and whatever the detector answers, an error included, is what
    [forward] answers. *)
Theorem mismatch_is_left_to_detector model input ys n c h w :
  shape input = [n; c; h; w] →
  ys ≠ [] →
  ∃ aug,
    new_targets (E:=E) input ys = Ok aug ∧
    new_targets (E:=E) input (take n ys) = Ok aug ∧
    length (_targets aug) = (n `min` length ys)%nat ∧
    forward model input (Some ys)
    = match call_with_targets model input (_targets aug) with
      | Ok loss_dict => Ok (Losses (add_total_loss loss_dict))
      | Raise e => Raise e
      end.
Proof.
  intros Hs Hys.
  exists (map (with_bogus h w) (take n ys)). split_and!.
  - by apply new_targets_Ok with c.
  - rewrite (new_targets_Ok input _ n c h w) by done.
    by rewrite take_take, Nat.min_id.
  - unfold _targets. by rewrite !length_map, length_take, Nat.min_comm.
  - destruct ys as [|y ys]; [done|].
    by rewrite forward_training, (new_targets_Ok input _ n c h w).
Qed.

(** C5: a target list that is empty selects the inference branch, as no
    targets at all do. *)
Theorem empty_target_list_selects_inference model input :
  forward model input (Some []) = forward model input None.
Proof. done. Qed.
End Training.

(** ** Dicts *)

Section Dict_lemmas.
Context {V : Type}.
Implicit Types (d : list (string * V)) (k : string) (v : V).

Lemma dict_get_set_eq k v d : dict_get k (dict_set k v d) = Some v.
Proof.
  induction d as [|[k' v'] d IH]; cbn.
  - by rewrite String.eqb_refl.
  - destruct (String.eqb k k') eqn:Hk; cbn; rewrite Hk; [done|apply IH].
Qed.

Lemma dict_get_set_ne k k' v d :
  k ≠ k' → dict_get k' (dict_set k v d) = dict_get k' d.
Proof.
  intros Hne. induction d as [|[k1 v1] d IH]; cbn.
  - by apply String.eqb_neq in Hne; rewrite String.eqb_sym, Hne.
  - destruct (String.eqb k k1) eqn:Hk; cbn; [|by rewrite IH].
    apply String.eqb_eq in Hk as <-.
    by apply String.eqb_neq in Hne; rewrite String.eqb_sym, Hne.
Qed.

Lemma dict_get_None k d : k ∉ keys d → dict_get k d = None.
Proof.
  induction d as [|[k' v'] d IH]; [done|]. cbn.
  intros Hk. apply not_elem_of_cons in Hk as [Hne Hk].
  apply String.eqb_neq in Hne. rewrite Hne. by apply IH.
Qed.

(** A new key goes to the end of the dict. *)
Lemma dict_set_new k v d : k ∉ keys d → dict_set k v d = d ++ [(k, v)].
Proof.
  induction d as [|[k' v'] d IH]; [done|]. cbn.
  intros Hk. apply not_elem_of_cons in Hk as [Hne Hk].
  apply String.eqb_neq in Hne. rewrite Hne. by rewrite IH.
Qed.

(** With keys that are all different, a lookup does not depend on the
    order of the entries. *)
Lemma dict_get_elem_of k v d :
  NoDup (keys d) → (k, v) ∈ d → dict_get k d = Some v.
Proof.
  induction d as [|[k' v'] d IH]; cbn; intros Hnd Hin.
  - by apply elem_of_nil in Hin.
  - apply NoDup_cons in Hnd as [Hk' Hnd].
    apply elem_of_cons in Hin as [[= <- <-]|Hin].
    + by rewrite String.eqb_refl.
    + destruct (String.eqb k k') eqn:Hk; [|by apply IH].
      apply String.eqb_eq in Hk as <-.
      destruct Hk'. apply list_elem_of_fmap. by exists (k, v).
Qed.
End Dict_lemmas.


(** ** The loss record *)

Section Loss_record.
Context {F : Type} `{Scalar F} {E : Type}.
Implicit Types (model : FasterRCNN F E) (input : Tensor F).
Implicit Types (ys : list (BoxList F)) (loss_dict : LossDict F).

Lemma NoDup_component_names : NoDup component_names.
Proof. by apply (bool_decide_unpack _). Qed.

(** A dict with the four component names as its keys has four entries, one
    for each name. *)
Lemma four_components loss_dict :
  keys loss_dict ≡ₚ component_names →
  ∃ b c o r,
    loss_dict ≡ₚ [("loss_box_reg", b); ("loss_classifier", c);
                  ("loss_objectness", o); ("loss_rpn_box_reg", r)].
Proof.
  intros Hk. symmetry in Hk.
  apply Permutation_map_inv in Hk as (d & Hd & Hp).
  destruct d as [|[k1 b] [|[k2 c] [|[k3 o] [|[k4 r] [|? ?]]]]]; try done.
  injection Hd as <- <- <- <-. by exists b, c, o, r.
Qed.

(** C1: when the detector, in the training branch, answers with a dict of
    the four components [loss_box_reg], [loss_classifier],
    [loss_objectness] and [loss_rpn_box_reg], the record that [forward]
    returns holds under [total_loss] the sum of the four values and of
    nothing else: the dict has four values, which are those of the four
    components, and the total is what [sum] makes of them, adding them to
    [0] one after the other in the order of the dict. Nothing is assumed of
    the addition, so that this holds of floating-point numbers. The four
    components are in the record as the detector gave them. *)
Theorem total_loss_is_sum_of_components model input ys aug loss_dict :
  ys ≠ [] →
  new_targets (E:=E) input ys = Ok aug →
  call_with_targets model input (_targets aug) = Ok loss_dict →
  keys loss_dict ≡ₚ component_names →
  ∃ box_reg classifier objectness rpn_box_reg v1 v2 v3 v4 record,
    dict_get "loss_box_reg" loss_dict = Some box_reg ∧
    dict_get "loss_classifier" loss_dict = Some classifier ∧
    dict_get "loss_objectness" loss_dict = Some objectness ∧
    dict_get "loss_rpn_box_reg" loss_dict = Some rpn_box_reg ∧
    values loss_dict = [v1; v2; v3; v4] ∧
    [v1; v2; v3; v4] ≡ₚ [box_reg; classifier; objectness; rpn_box_reg] ∧
    forward model input (Some ys) = Ok (Losses record) ∧
    dict_get "total_loss" record
    = Some (fadd (fadd (fadd (fadd (of_nat 0) v1) v2) v3) v4) ∧
    (∀ k, k ∈ component_names → dict_get k record = dict_get k loss_dict) ∧
    keys record ≡ₚ subloss_names.
Proof.
  intros Hys Haug Hcall Hkeys.
  destruct (four_components _ Hkeys) as (b & c & o & r & Hp).
  assert (Hnd : NoDup (keys loss_dict)).
  { rewrite Hkeys. apply NoDup_component_names. }
  assert (Hget : ∀ k v,
            (k, v) ∈ [("loss_box_reg", b); ("loss_classifier", c);
                      ("loss_objectness", o); ("loss_rpn_box_reg", r)] →
            dict_get k loss_dict = Some v).
  { intros k v Hin. apply dict_get_elem_of; [done|]. by rewrite Hp. }
  assert (Hnew : "total_loss" ∉ keys loss_dict).
  { rewrite Hkeys. by apply (bool_decide_unpack _). }
  assert (Hvals : values loss_dict ≡ₚ [b; c; o; r]).
  { unfold values. by rewrite Hp. }
  destruct (values loss_dict) as [|v1 [|v2 [|v3 [|v4 [|? ?]]]]] eqn:Hv;
    try (by apply Permutation_length in Hvals).
  exists b, c, o, r, v1, v2, v3, v4, (add_total_loss loss_dict). split_and!.
  - apply Hget. repeat constructor.
  - apply Hget. repeat constructor.
  - apply Hget. repeat constructor.
  - apply Hget. repeat constructor.
  - done.
  - done.
  - destruct ys as [|y ys]; [done|].
    by rewrite forward_training, Haug; cbn; rewrite Hcall.
  - unfold add_total_loss. by rewrite dict_get_set_eq, Hv.
  - intros k Hk. unfold add_total_loss. apply dict_get_set_ne.
    intros <-. apply Hnew. by rewrite Hkeys.
  - unfold add_total_loss. rewrite dict_set_new by done.
    unfold keys. rewrite map_app. cbn. fold (keys loss_dict).
    rewrite Hkeys. unfold subloss_names, component_names.
    by rewrite <- Permutation_cons_append.
Qed.
End Loss_record.

(** ** The inference branch *)

Section Inference.
Context {F : Type} `{Scalar F} {E : Type}.
Implicit Types (model : FasterRCNN F E) (input : Tensor F).
Implicit Types (out : list (Detection F)) (ls : list Z).

Lemma mask_select_labels ls :
  mask_select (non_zero_inds ls) ls = filter (.≠ 0) ls.
Proof.
  induction ls as [|l ls IH]; [done|].
  rewrite filter_cons. cbn [non_zero_inds map mask_select].
  fold (non_zero_inds ls).
  destruct (Z.eqb_spec l 0) as [->|Hl]; cbn [negb].
  - by rewrite decide_False by naive_solver.
  - by rewrite decide_True, IH by done.
Qed.

(** Rows selected from an array that is as long as the label array are as
    many as the labels that are not zero. *)
Lemma length_mask_select {A} ls (l : list A) :
  length l = length ls →
  length (mask_select (non_zero_inds ls) l) = length (filter (.≠ 0) ls).
Proof.
  revert l. induction ls as [|z ls IH]; intros [|a l] Hlen; try done.
  rewrite filter_cons. cbn [non_zero_inds map mask_select].
  fold (non_zero_inds ls).
  destruct (Z.eqb_spec z 0) as [->|Hz]; cbn [negb].
  - rewrite decide_False by naive_solver. apply IH. by injection Hlen.
  - rewrite decide_True by done. cbn [length]. f_equal.
    apply IH. by injection Hlen.
Qed.

Lemma mask_select_all_zero {A} ls (l : list A) :
  Forall (.= 0) ls → mask_select (non_zero_inds ls) l = [].
Proof.
  intros Hz. revert l. induction Hz as [|z ls -> _ IH]; intros [|a l]; try done.
  cbn. apply IH.
Qed.

Lemma forward_inference model input targets :
  truthy targets = false →
  forward model input targets
  = (out ← call model input;
     mret (Predictions (map remove_bogus (map to_boxlist out)))).
Proof. intros Ht. unfold forward. by rewrite Ht. Qed.

(** C3: in the inference branch [forward] returns one BoxList per detection
    of the detector, and none of them has a label [0]. When the arrays of a
    detection are of one length, the BoxList has as many boxes (and labels
    and scores) as the detection has labels other than [0] - three for five
    boxes of which two are labelled [0] - and it is the empty BoxList when
    every label is [0]. *)
Theorem inference_drops_background_boxes model input targets out :
  truthy targets = false →
  call model input = Ok out →
  (∀ o, o ∈ out →
     length (out_boxes o) = length (out_labels o) ∧
     length (out_scores o) = length (out_labels o)) →
  ∃ bls,
    forward model input targets = Ok (Predictions bls) ∧
    length bls = length out ∧
    ∀ i o, out !! i = Some o →
      ∃ bl, bls !! i = Some bl ∧
        (0 ∉ labels bl) ∧
        length (boxes bl) = length (filter (.≠ 0) (out_labels o)) ∧
        length (labels bl) = length (boxes bl) ∧
        (∃ s, scores bl = Some s ∧ length s = length (boxes bl)) ∧
        (Forall (.= 0) (out_labels o) → bl = mkBoxList [] [] (Some [])).
Proof.
  intros Ht Hcall Hwf.
  exists (map remove_bogus (map to_boxlist out)). split_and!.
  - by rewrite forward_inference, Hcall.
  - by rewrite !length_map.
  - intros i o Hi. exists (remove_bogus (to_boxlist o)).
    destruct (Hwf o) as [Hb Hs]; [by eapply list_elem_of_lookup_2|].
    split_and!.
    + by rewrite !list_lookup_fmap, Hi.
    + cbn. rewrite mask_select_labels.
      intros Hin. by apply list_elem_of_filter in Hin as [? _].
    + cbn. apply length_mask_select. by rewrite length_map.
    + cbn. rewrite mask_select_labels. symmetry.
      apply length_mask_select. by rewrite length_map.
    + cbn. eexists. split; [reflexivity|].
      rewrite !length_mask_select; [done|by rewrite length_map|done].
    + intros Hz. unfold remove_bogus, ind_filter. cbn.
      by rewrite !mask_select_all_zero.
Qed.
End Inference.

(** ** The forward pass of the network and its observers *)

Section Observers.
Context {F : Type} {E : Type}.
Implicit Types (net : ResNet F E) (heap : Heap) (x t : Tensor F).
Implicit Types (hooks : list save_output) (s : stage).

Lemma call_hook_Ok hook t c net heap :
  shape t !! 1%nat = Some c →
  call_hook hook t (net, heap)
  = (Ok (), (net, alter (insert (hook_layer_name hook) c) (hook_out hook) heap)).
Proof.
  intros Hc. unfold call_hook.
  rewrite (ST_bind_Ok _ _ _ c (net, heap)); [done|].
  unfold lift, shape_1. by rewrite Hc.
Qed.

Lemma call_hooks_Ok hooks t c net heap :
  shape t !! 1%nat = Some c →
  call_hooks hooks t (net, heap) = (Ok (), (net, hooks_heap hooks c heap)).
Proof.
  intros Hc. revert heap. induction hooks as [|hook hooks IH]; intros heap.
  - done.
  - cbn [call_hooks].
    rewrite (ST_bind_Ok _ _ _ () _ (call_hook_Ok hook t c net heap Hc)).
    apply IH.
Qed.

Lemma call_stage_Ok s x t c net heap :
  layer net s x = Ok t →
  shape t !! 1%nat = Some c →
  call_stage s x (net, heap)
  = (Ok t, (net, hooks_heap (forward_hooks net s) c heap)).
Proof.
  intros Hl Hc. unfold call_stage.
  rewrite (ST_bind_Ok _ _ _ t (net, heap)) by (unfold lift; by rewrite Hl).
  by rewrite (ST_bind_Ok _ _ _ () _ (call_hooks_Ok _ t c net heap Hc)).
Qed.

Lemma call_stage_Raise s x e net heap :
  layer net s x = Raise e →
  call_stage s x (net, heap) = (Raise e, (net, heap)).
Proof.
  intros Hl. unfold call_stage.
  apply ST_bind_Raise. unfold lift. by rewrite Hl.
Qed.

Lemma hooks_heap_cons hook hooks c heap :
  hooks_heap (hook :: hooks) c heap
  = hooks_heap hooks c
      (alter (insert (hook_layer_name hook) c) (hook_out hook) heap).
Proof. done. Qed.

Lemma length_hooks_heap hooks c heap :
  length (hooks_heap hooks c heap) = length heap.
Proof.
  revert heap. induction hooks as [|hook hooks IH]; intros heap; [done|].
  by rewrite hooks_heap_cons, IH, length_alter.
Qed.

(** Hooks that store elsewhere leave the dict at [a] as it is. *)
Lemma hooks_heap_lookup_ne hooks c heap a :
  (∀ hook, hook ∈ hooks → hook_out hook ≠ a) →
  hooks_heap hooks c heap !! a = heap !! a.
Proof.
  revert heap. induction hooks as [|hook hooks IH]; intros heap Hne; [done|].
  rewrite hooks_heap_cons, IH by (intros h Hh; apply Hne; by right).
  apply list_lookup_alter_ne. apply Hne. by left.
Qed.

Lemma hooks_heap_app hooks hooks' c heap :
  hooks_heap (hooks ++ hooks') c heap
  = hooks_heap hooks' c (hooks_heap hooks c heap).
Proof. unfold hooks_heap. by rewrite foldl_app. Qed.

(** The hooks of a stage once [get_out_channels] has added its own. *)
Lemma hooks_heap_lookup_new hooks c heap a k :
  (∀ hook, hook ∈ hooks → hook_out hook ≠ a) →
  hooks_heap (hooks ++ [mk_save_output a k]) c heap !! a
  = insert k c <$> heap !! a.
Proof.
  intros Hne. rewrite hooks_heap_app, hooks_heap_cons. cbn.
  by rewrite list_lookup_alter_eq, hooks_heap_lookup_ne.
Qed.

(** The stages one after the other, read off [stage_output]. *)
Lemma stage_output_Ok net x x1 x2 x3 x4 :
  stage_output net x layer1 = Ok x1 →
  stage_output net x layer2 = Ok x2 →
  stage_output net x layer3 = Ok x3 →
  stage_output net x layer4 = Ok x4 →
  ∃ x0, stem net x = Ok x0 ∧
    layer net layer1 x0 = Ok x1 ∧ layer net layer2 x1 = Ok x2 ∧
    layer net layer3 x2 = Ok x3 ∧ layer net layer4 x3 = Ok x4.
Proof.
  unfold stage_output. intros H1 H2 H3 H4.
  destruct (stem net x) as [x0|e]; [|done]. exists x0.
  cbn in H1, H2, H3, H4. rewrite H1 in H2, H3, H4. cbn in H2, H3, H4.
  rewrite H2 in H3, H4. cbn in H3, H4.
  rewrite H3 in H4. cbn in H4. done.
Qed.

(** A forward pass in which every stage answers: each stage runs its hooks
    on its output, and the network answers with the answer of its head. *)
Lemma call_model_Ok net heap x x1 x2 x3 x4 y c1 c2 c3 c4 :
  stage_output net x layer1 = Ok x1 →
  stage_output net x layer2 = Ok x2 →
  stage_output net x layer3 = Ok x3 →
  stage_output net x layer4 = Ok x4 →
  head net x4 = Ok y →
  shape x1 !! 1%nat = Some c1 →
  shape x2 !! 1%nat = Some c2 →
  shape x3 !! 1%nat = Some c3 →
  shape x4 !! 1%nat = Some c4 →
  call_model x (net, heap)
  = (Ok y,
     (net,
      hooks_heap (forward_hooks net layer4) c4
        (hooks_heap (forward_hooks net layer3) c3
           (hooks_heap (forward_hooks net layer2) c2
              (hooks_heap (forward_hooks net layer1) c1 heap))))).
Proof.
  intros H1 H2 H3 H4 Hy Hc1 Hc2 Hc3 Hc4.
  destruct (stage_output_Ok net x x1 x2 x3 x4) as (x0 & H0 & L1 & L2 & L3 & L4);
    [done..|].
  unfold call_model.
  rewrite (ST_bind_Ok _ _ _ x0 (net, heap)) by (by rewrite lift_spec, H0).
  rewrite (ST_bind_Ok _ _ _ x1 _ (call_stage_Ok _ _ _ c1 _ _ L1 Hc1)).
  rewrite (ST_bind_Ok _ _ _ x2 _ (call_stage_Ok _ _ _ c2 _ _ L2 Hc2)).
  rewrite (ST_bind_Ok _ _ _ x3 _ (call_stage_Ok _ _ _ c3 _ _ L3 Hc3)).
  rewrite (ST_bind_Ok _ _ _ x4 _ (call_stage_Ok _ _ _ c4 _ _ L4 Hc4)).
  by rewrite lift_spec, Hy.
Qed.

(** The hooks do not change what a forward pass answers: when each stage
    that answers gives an output with a channel dimension, the network with
    its hooks answers as the network alone, and only the dicts change. *)
Lemma call_model_plain net heap x :
  (∀ s t, stage_output net x s = Ok t → is_Some (shape t !! 1%nat)) →
  ∃ heap',
    call_model x (net, heap) = (plain_forward net x, (net, heap')) ∧
    length heap' = length heap.
Proof.
  intros Hc.
  pose proof (Hc layer1) as Hc1. pose proof (Hc layer2) as Hc2.
  pose proof (Hc layer3) as Hc3. pose proof (Hc layer4) as Hc4. clear Hc.
  remember (plain_forward net x) as r eqn:Hr.
  unfold plain_forward, stage_output in *. unfold call_model.
  destruct (stem net x) as [x0|e] eqn:H0; cbn in Hr, Hc1, Hc2, Hc3, Hc4.
  2:{ subst r. exists heap. split; [|done].
      by apply ST_bind_Raise. }
  rewrite (ST_bind_Ok _ _ _ x0 (net, heap)) by done.
  destruct (layer net layer1 x0) as [x1|e] eqn:L1;
    cbn in Hr, Hc1, Hc2, Hc3, Hc4.
  2:{ subst r. exists heap. split; [|done].
      apply ST_bind_Raise. by apply call_stage_Raise. }
  destruct (Hc1 x1 eq_refl) as [c1 Hs1].
  rewrite (ST_bind_Ok _ _ _ x1 _ (call_stage_Ok _ _ _ c1 _ _ L1 Hs1)).
  destruct (layer net layer2 x1) as [x2|e] eqn:L2;
    cbn in Hr, Hc2, Hc3, Hc4.
  2:{ subst r. eexists. split; [|apply length_hooks_heap].
      apply ST_bind_Raise. by apply call_stage_Raise. }
  destruct (Hc2 x2 eq_refl) as [c2 Hs2].
  rewrite (ST_bind_Ok _ _ _ x2 _ (call_stage_Ok _ _ _ c2 _ _ L2 Hs2)).
  destruct (layer net layer3 x2) as [x3|e] eqn:L3; cbn in Hr, Hc3, Hc4.
  2:{ subst r. eexists. split.
      - apply ST_bind_Raise. by apply call_stage_Raise.
      - by rewrite !length_hooks_heap. }
  destruct (Hc3 x3 eq_refl) as [c3 Hs3].
  rewrite (ST_bind_Ok _ _ _ x3 _ (call_stage_Ok _ _ _ c3 _ _ L3 Hs3)).
  destruct (layer net layer4 x3) as [x4|e] eqn:L4; cbn in Hr, Hc4.
  2:{ subst r. eexists. split.
      - apply ST_bind_Raise. by apply call_stage_Raise.
      - by rewrite !length_hooks_heap. }
  destruct (Hc4 x4 eq_refl) as [c4 Hs4].
  rewrite (ST_bind_Ok _ _ _ x4 _ (call_stage_Ok _ _ _ c4 _ _ L4 Hs4)).
  subst r. eexists. split.
  - by rewrite lift_spec.
  - by rewrite !length_hooks_heap.
Qed.

(** *** What leaves the network as it is *)

Lemma keeps_net_ret {A} (a : A) : keeps_net (mret a : M F E A).
Proof. by intros net heap. Qed.

Lemma keeps_net_bind {A B} (m : M F E A) (f : A → M F E B) :
  keeps_net m → (∀ a, keeps_net (f a)) → keeps_net (m ≫= f).
Proof.
  intros Hm Hf net heap. specialize (Hm net heap).
  unfold mbind, ST_mbind, ST_bind.
  destruct (m (net, heap)) as [[a|e] [net' heap']]; cbn in Hm; subst net'.
  - apply Hf.
  - done.
Qed.

Lemma keeps_net_lift {A} (r : result E A) : keeps_net (lift r : M F E A).
Proof. by intros net heap. Qed.

Lemma keeps_net_dict_store a k v : keeps_net (dict_store a k v : M F E unit).
Proof. by intros net heap. Qed.

Lemma keeps_net_dict_load a k : keeps_net (dict_load a k : M F E nat).
Proof.
  intros net heap. unfold dict_load. by destruct (heap !! a ≫= _).
Qed.

Lemma keeps_net_call_hooks hooks t : keeps_net (call_hooks (E:=E) hooks t).
Proof.
  induction hooks as [|hook hooks IH]; [apply keeps_net_ret|].
  cbn [call_hooks]. apply keeps_net_bind; [|done].
  apply keeps_net_bind; [apply keeps_net_lift|].
  intros c. apply keeps_net_dict_store.
Qed.

Lemma keeps_net_call_stage s x : keeps_net (call_stage (E:=E) s x).
Proof.
  intros net heap. unfold call_stage.
  apply (keeps_net_bind (lift (layer net s x))); [apply keeps_net_lift|].
  intros t. apply keeps_net_bind; [apply keeps_net_call_hooks|].
  intros []. apply keeps_net_ret.
Qed.

Lemma keeps_net_call_model x : keeps_net (call_model (E:=E) x).
Proof.
  intros net heap. unfold call_model.
  apply (keeps_net_bind (lift (stem net x))); [apply keeps_net_lift|].
  intros x0. repeat (apply keeps_net_bind; [apply keeps_net_call_stage|]; intros ?).
  apply keeps_net_lift.
Qed.

(** *** [get_out_channels] *)

(** The start of [get_out_channels]: the new dict is at the end of the
    heap and the four hooks are on the network when the forward pass
    begins. *)
Lemma get_out_channels_start mem net heap :
  get_out_channels mem (net, heap)
  = (call_model (dummy_input mem);;
     c1 ← dict_load (length heap) "layer1";
     c2 ← dict_load (length heap) "layer2";
     c3 ← dict_load (length heap) "layer3";
     c4 ← dict_load (length heap) "layer4";
     mret [c1; c2; c3; c4])
      (observed net (length heap), heap ++ [∅]).
Proof. done. Qed.

Lemma observed_hooks net out s :
  forward_hooks (observed net out) s
  = forward_hooks net s ++ [make_save_output out (stage_name s)].
Proof. by destruct s. Qed.

Lemma dict_load_Ok a k (d : Dict) v net heap :
  heap !! a = Some d → d !! k = Some v →
  dict_load a k (net, heap) = (Ok v, (net, heap)).
Proof. intros Ha Hk. unfold dict_load. by rewrite Ha; cbn; rewrite Hk. Qed.

(** The network after [get_out_channels], whether it returns or raises. *)
Lemma get_out_channels_net mem net heap :
  (get_out_channels mem (net, heap)).2.1 = observed net (length heap).
Proof.
  rewrite get_out_channels_start.
  apply keeps_net_bind; [apply keeps_net_call_model|]. intros _.
  repeat (apply keeps_net_bind; [apply keeps_net_dict_load|]; intros ?).
  apply keeps_net_ret.
Qed.

(** C8 (as amended): the forward pass of [get_out_channels] is run on one
    3-channel image of extent 128 by 128 whose values are those of the
    uninitialised memory that [torch.empty] hands out; when the four stages
    and the head answer on it, [get_out_channels] returns dimension 1 of the
    outputs of [layer1], [layer2], [layer3] and [layer4], in that order. *)
Theorem get_out_channels_records_stage_channels
    mem net heap x1 x2 x3 x4 y c1 c2 c3 c4 :
  hooks_wf net heap →
  stage_output net (dummy_input mem) layer1 = Ok x1 →
  stage_output net (dummy_input mem) layer2 = Ok x2 →
  stage_output net (dummy_input mem) layer3 = Ok x3 →
  stage_output net (dummy_input mem) layer4 = Ok x4 →
  head net x4 = Ok y →
  shape x1 !! 1%nat = Some c1 →
  shape x2 !! 1%nat = Some c2 →
  shape x3 !! 1%nat = Some c3 →
  shape x4 !! 1%nat = Some c4 →
  shape (dummy_input mem) = [1; 3; 128; 128]%nat ∧
  data (dummy_input mem) = mem ∧
  (get_out_channels mem (net, heap)).1 = Ok [c1; c2; c3; c4].
Proof.
  intros Hwf H1 H2 H3 H4 Hy Hc1 Hc2 Hc3 Hc4. split_and!; [done..|].
  rewrite get_out_channels_start.
  set (out := length heap). set (net1 := observed net out).
  rewrite (ST_bind_Ok _ _ _ y _
             (call_model_Ok net1 _ _ x1 x2 x3 x4 y c1 c2 c3 c4
                H1 H2 H3 H4 Hy Hc1 Hc2 Hc3 Hc4)).
  set (heap1 := hooks_heap _ c4 _).
  assert (Hold : ∀ s hook, hook ∈ forward_hooks net s → hook_out hook ≠ out).
  { intros s hook Hin. specialize (Hwf s hook Hin). unfold out. lia. }
  assert (Hout : heap1 !! out
            = Some (<["layer4" := c4]> (<["layer3" := c3]>
                      (<["layer2" := c2]> (<["layer1" := c1]> ∅))))).
  { unfold heap1, net1. rewrite !observed_hooks.
    rewrite !hooks_heap_lookup_new by (by apply Hold).
    unfold out. by rewrite lookup_app_r, Nat.sub_diag by done. }
  set (d := <["layer4" := c4]> _) in Hout.
  assert (Hd1 : d !! "layer1" = Some c1) by (unfold d; by simplify_map_eq).
  assert (Hd2 : d !! "layer2" = Some c2) by (unfold d; by simplify_map_eq).
  assert (Hd3 : d !! "layer3" = Some c3) by (unfold d; by simplify_map_eq).
  assert (Hd4 : d !! "layer4" = Some c4) by (unfold d; by simplify_map_eq).
  rewrite (ST_bind_Ok _ _ _ c1 _ (dict_load_Ok _ _ _ c1 net1 _ Hout Hd1)).
  rewrite (ST_bind_Ok _ _ _ c2 _ (dict_load_Ok _ _ _ c2 net1 _ Hout Hd2)).
  rewrite (ST_bind_Ok _ _ _ c3 _ (dict_load_Ok _ _ _ c3 net1 _ Hout Hd3)).
  rewrite (ST_bind_Ok _ _ _ c4 _ (dict_load_Ok _ _ _ c4 net1 _ Hout Hd4)).
  done.
Qed.

(** Hooks that store elsewhere, the new observer among them, leave the
    dict at [a] as it is. *)
Lemma observed_hooks_heap_lookup_ne net out s c heap a :
  a ≠ out →
  (∀ hook, hook ∈ forward_hooks net s → hook_out hook ≠ a) →
  hooks_heap (forward_hooks (observed net out) s) c heap !! a = heap !! a.
Proof.
  intros Hout Hold. apply hooks_heap_lookup_ne.
  intros hook. rewrite observed_hooks, elem_of_app.
  intros [Hin|Hin]; [by apply Hold|].
  apply list_elem_of_singleton in Hin as ->. cbn. done.
Qed.

(** C6 (as amended): the observers are not discarded. After
    [get_out_channels], whether it returned or raised, each stage has its
    observer as the last of its hooks and the network is otherwise as it
    was. They run in every later forward pass but leave the outputs alone:
    when each stage that answers gives an output with a channel dimension,
    the pass answers as the network without hooks does. In a later pass in
    which the stages answer, each observer stores the channel count of its
    stage under the name of the stage in the dict of the introspection
    call, and no dict is written but that one and those of the hooks that
    the network had before. *)
Theorem observers_stay_attached mem net heap r net' heap' :
  get_out_channels mem (net, heap) = (r, (net', heap')) →
  (∀ s, forward_hooks net' s
        = forward_hooks net s
          ++ [make_save_output (length heap) (stage_name s)]) ∧
  named_parameters net' = named_parameters net ∧
  stem net' = stem net ∧ layer net' = layer net ∧ head net' = head net ∧
  (∀ x heap1,
     (∀ s t, stage_output net x s = Ok t → is_Some (shape t !! 1%nat)) →
     ∃ heap2,
       call_model x (net', heap1) = (plain_forward net x, (net', heap2)) ∧
       length heap2 = length heap1) ∧
  (hooks_wf net heap →
   ∀ x heap1 x1 x2 x3 x4 y c1 c2 c3 c4,
     stage_output net x layer1 = Ok x1 →
     stage_output net x layer2 = Ok x2 →
     stage_output net x layer3 = Ok x3 →
     stage_output net x layer4 = Ok x4 →
     head net x4 = Ok y →
     shape x1 !! 1%nat = Some c1 →
     shape x2 !! 1%nat = Some c2 →
     shape x3 !! 1%nat = Some c3 →
     shape x4 !! 1%nat = Some c4 →
     ∃ heap2,
       call_model x (net', heap1) = (Ok y, (net', heap2)) ∧
       heap2 !! length heap
       = (λ out : Dict,
            <["layer4" := c4]> (<["layer3" := c3]>
              (<["layer2" := c2]> (<["layer1" := c1]> out))))
         <$> heap1 !! length heap ∧
       ∀ a,
         a ≠ length heap →
         (∀ s hook, hook ∈ forward_hooks net s → hook_out hook ≠ a) →
         heap2 !! a = heap1 !! a).
Proof.
  intros Hrun.
  pose proof (get_out_channels_net mem net heap) as Hnet.
  rewrite Hrun in Hnet. cbn in Hnet. subst net'.
  split_and!; [apply observed_hooks|done..| |].
  - intros x heap1 Hc.
    by apply (call_model_plain (observed net (length heap)) heap1 x).
  - intros Hwf x heap1 x1 x2 x3 x4 y c1 c2 c3 c4
      H1 H2 H3 H4 Hy Hc1 Hc2 Hc3 Hc4.
    set (out := length heap). set (net1 := observed net out).
    eexists. split_and!.
    + exact (call_model_Ok net1 heap1 x x1 x2 x3 x4 y c1 c2 c3 c4
               H1 H2 H3 H4 Hy Hc1 Hc2 Hc3 Hc4).
    + assert (Hold : ∀ s hook,
                hook ∈ forward_hooks net s → hook_out hook ≠ out).
      { intros s hook Hin. specialize (Hwf s hook Hin). unfold out. lia. }
      unfold net1. rewrite !observed_hooks.
      rewrite !hooks_heap_lookup_new by (by apply Hold).
      by destruct (heap1 !! out).
    + intros a Ha Hold. unfold net1.
      by rewrite !observed_hooks_heap_lookup_ne
        by first [exact Ha | apply Hold].
Qed.
End Observers.

(** ** Freezing *)

Section Substrings.
Implicit Types (s name : string).

Lemma prefix_spec s name :
  String.prefix s name = true ↔ ∃ post, name = (s +:+ post)%string.
Proof.
  revert name. induction s as [|a s IH]; intros name.
  - split; [intros _; by exists name|intros _; by destruct name].
  - destruct name as [|b name].
    { split; [done|]. intros [post Hp]. done. }
    change (String.prefix (String a s) (String b name))
      with (if Ascii.ascii_dec a b then String.prefix s name else false).
    destruct (Ascii.ascii_dec a b) as [<-|Hab].
    + rewrite IH. split; intros [post Hp]; exists post.
      * by rewrite Hp.
      * injection Hp as Hp. done.
    + split; [done|]. intros [post Hp]. injection Hp as Hp. done.
Qed.
(** [str_in s name] holds when [s] occurs somewhere in [name]. *)
Lemma str_in_spec s name :
  str_in s name = true
  ↔ ∃ pre post, name = (pre +:+ s +:+ post)%string.
Proof.
  induction name as [|b name IH].
  - change (str_in s "") with (String.prefix s "" || false).
    rewrite orb_false_r, prefix_spec. split.
    + intros [post Hp]. by exists EmptyString, post.
    + intros [[|? ?] [post Hp]]; [by exists post|done].
  - change (str_in s (String b name))
      with (String.prefix s (String b name) || str_in s name).
    rewrite orb_true_iff, IH, prefix_spec. split.
    + intros [[post Hp]|(pre & post & Hp)].
      * by exists EmptyString, post.
      * exists (String b pre), post. by rewrite Hp.
    + intros [[|a pre] [post Hp]].
      * left. by exists post.
      * right. exists pre, post. by injection Hp.
Qed.
End Substrings.

Section Freezing.
Context {F : Type} {E : Type}.
Implicit Types (params : list (string * bool)) (name : string).

Lemma freeze_layers_lookup params i name requires_grad :
  params !! i = Some (name, requires_grad) →
  freeze_layers params !! i
  = Some (name, if frozen_name name then false else requires_grad).
Proof.
  intros Hi. unfold freeze_layers. rewrite list_lookup_fmap, Hi. cbn.
  by destruct (frozen_name name).
Qed.

Lemma frozen_name_true name :
  frozen_name name = true
  ↔ str_in "layer2" name = false ∧ str_in "layer3" name = false ∧
    str_in "layer4" name = false.
Proof.
  unfold frozen_name. rewrite !andb_true_iff, !negb_true_iff. tauto.
Qed.

(** C4 (as amended): in the backbone that [resnet_fpn_backbone] returns,
    every parameter whose name contains none of [layer2], [layer3] and
    [layer4] - the parameters of [layer1], and those of the stem and of the
    head with them - has its gradient switched off, and every parameter
    whose name contains one of the three has the flag that the constructor
    gave it. *)
Theorem freezing_policy
    (resnet_dict : string → option (bool → result E (ResNet F E)))
    mem backbone_name pretrained heap fpn heap' :
  resnet_fpn_backbone resnet_dict mem backbone_name pretrained heap
  = (Ok fpn, heap') →
  ∃ constructor backbone,
    resnet_dict backbone_name = Some constructor ∧
    constructor pretrained = Ok backbone ∧
    length (named_parameters (body fpn)) = length (named_parameters backbone) ∧
    ∀ i name requires_grad,
      named_parameters backbone !! i = Some (name, requires_grad) →
      (str_in "layer2" name = false → str_in "layer3" name = false →
       str_in "layer4" name = false →
       named_parameters (body fpn) !! i = Some (name, false)) ∧
      (str_in "layer2" name = true ∨ str_in "layer3" name = true ∨
       str_in "layer4" name = true →
       named_parameters (body fpn) !! i = Some (name, requires_grad)).
Proof.
  intros Hb. unfold resnet_fpn_backbone in Hb.
  destruct (resnet_dict backbone_name) as [constructor|]; [|done].
  destruct (constructor pretrained) as [backbone|e] eqn:Hc; [|done].
  exists constructor, backbone.
  change ((freeze;; get_out_channels mem) (backbone, heap))
    with (get_out_channels mem (freeze_net backbone, heap)) in Hb.
  pose proof (get_out_channels_net mem (freeze_net backbone) heap) as Hnet.
  destruct (get_out_channels mem (freeze_net backbone, heap))
    as [[l|e] [net' heap'']]; [|done].
  injection Hb as <- <-. cbn in Hnet. subst net'. cbn.
  split_and!; [done..|unfold freeze_layers; by rewrite length_map|].
  intros i name g Hi.
  rewrite (freeze_layers_lookup _ i name g Hi). split.
  - intros Hn2 Hn3 Hn4.
    by rewrite (proj2 (frozen_name_true name)).
  - intros Hn. destruct (frozen_name name) eqn:Hf; [|done].
    apply frozen_name_true in Hf as (? & ? & ?).
    destruct Hn as [?|[?|?]]; congruence.
Qed.
End Freezing.

(** ** Aliasing *)

Section Aliasing.
Context {F : Type} `{Scalar F} {E : Type}.
Local Abbreviation Mem := (ST (list (object F)) E).
Implicit Types (σ : list (object F)) (model : FasterRCNN_obj F E).

Lemma adds_ret {A} (a : A) σ (Q : A → list (object F) → Prop) :
  Q a σ → adds (mret a : Mem A) σ Q.
Proof. intros HQ. split; [done|]. by intros a' [= <-]. Qed.

Lemma adds_bind {A B} (m : Mem A) (f : A → Mem B) σ Q R :
  adds m σ Q →
  (∀ a σ', σ `prefix_of` σ' → Q a σ' → adds (f a) σ' R) →
  adds (m ≫= f) σ R.
Proof.
  intros [Hp HQ] Hf. unfold adds, mbind, ST_mbind, ST_bind.
  destruct (m σ) as [[a|e] σ']; cbn in *.
  - destruct (Hf a σ' Hp (HQ a eq_refl)) as [Hp' HR].
    split; [by trans σ'|done].
  - done.
Qed.

Lemma adds_weaken {A} (m : Mem A) σ (Q Q' : A → list (object F) → Prop) :
  adds m σ Q →
  (∀ a σ', σ `prefix_of` σ' → Q a σ' → Q' a σ') →
  adds m σ Q'.
Proof. intros [Hp HQ] HQ'. split; [done|]. intros a Ha. by apply HQ', HQ. Qed.

Lemma adds_lift {A} (r : result E A) σ :
  adds (lift r : Mem A) σ (λ a σ', σ' = σ ∧ r = Ok a).
Proof. by split. Qed.

Lemma adds_alloc (o : object F) σ :
  adds (alloc o : Mem nat) σ (λ a σ', a = length σ ∧ σ' = σ ++ [o]).
Proof.
  split; cbn.
  - by apply prefix_app_r.
  - by intros a [= <-].
Qed.

Lemma adds_load_boxlist a σ :
  adds (load_boxlist a : Mem _) σ
    (λ bls σ', σ' = σ ∧ σ !! a = Some (BoxListObject bls.1.1 bls.1.2 bls.2)).
Proof.
  unfold adds, load_boxlist.
  destruct (σ !! a) as [[| | |b l s]|]; cbn; split; try done.
  by intros ? [= <-].
Qed.

Lemma adds_load_boxes a σ :
  adds (load_boxes a : Mem _) σ (λ _ σ', σ' = σ).
Proof.
  unfold adds, load_boxes. by destruct (σ !! a) as [[| | |]|].
Qed.

Lemma adds_load_labels a σ :
  adds (load_labels a : Mem _) σ (λ _ σ', σ' = σ).
Proof.
  unfold adds, load_labels. by destruct (σ !! a) as [[| | |]|].
Qed.

Lemma adds_load_scores a σ :
  adds (load_scores a : Mem _) σ (λ _ σ', σ' = σ).
Proof.
  unfold adds, load_scores. by destruct (σ !! a) as [[| | |]|].
Qed.

(** A loop of computations that only add objects only adds objects. *)
Lemma adds_for_each_st {A B} (f : A → Mem B) l σ
    (P : A → list (object F) → Prop) (Q : B → list (object F) → Prop) :
  (∀ a σ1 σ2, P a σ1 → σ1 `prefix_of` σ2 → P a σ2) →
  (∀ b σ1 σ2, Q b σ1 → σ1 `prefix_of` σ2 → Q b σ2) →
  (∀ a σ', σ `prefix_of` σ' → P a σ' → adds (f a) σ' Q) →
  Forall (λ a, P a σ) l →
  adds (for_each_st f l) σ (λ bs σ', Forall (λ b, Q b σ') bs).
Proof.
  intros HP HQ Hf. revert σ Hf.
  induction l as [|a l IH]; intros σ Hf Hl.
  - by apply adds_ret.
  - apply Forall_cons in Hl as [Ha Hl]. cbn [for_each_st].
    eapply adds_bind; [by apply Hf|].
    intros b σ1 Hp1 Hb.
    eapply adds_bind.
    + apply IH.
      * intros a' σ' Hp' Ha'. apply Hf; [by trans σ1|done].
      * eapply Forall_impl; [done|]. intros a' Ha'.
        exact (HP a' σ σ1 Ha' Hp1).
    + intros bs σ2 Hp2 Hbs. apply adds_ret.
      apply Forall_cons. split; [exact (HQ b σ1 σ2 Hb Hp2)|done].
Qed.

Lemma fresh_boxlist_mono n bl σ σ' :
  fresh_boxlist (F:=F) n bl σ → σ `prefix_of` σ' → fresh_boxlist n bl σ'.
Proof.
  intros (b & l & s & Hbl & ?) Hp. exists b, l, s.
  split; [by eapply prefix_lookup_Some|done].
Qed.
Lemma lookup_snoc (o : object F) σ : (σ ++ [o]) !! length σ = Some o.
Proof. by rewrite lookup_app_r, Nat.sub_diag. Qed.

(** The loop body of the training branch makes a new BoxList over new
    tensors. *)
Lemma adds_add_bogus_obj n xy σ :
  (n ≤ length σ)%nat →
  adds (add_bogus_obj (E:=E) xy) σ (fresh_boxlist n).
Proof.
  intros Hn. destruct xy as [x y]. unfold add_bogus_obj.
  eapply adds_bind; [apply adds_lift|]. intros [h w] ? _ [-> _].
  eapply adds_bind; [apply adds_load_boxlist|].
  intros [[yb yl] ysc] ? _ [-> _].
  eapply adds_bind; [apply adds_load_boxes|]. intros bs ? _ ->.
  eapply adds_bind; [apply adds_alloc|]. intros b' ? _ [-> ->].
  eapply adds_bind; [apply adds_load_labels|]. intros ls ? _ ->.
  eapply adds_bind; [apply adds_alloc|]. intros l' ? _ [-> ->].
  eapply adds_weaken; [apply adds_alloc|]. intros a ? _ [-> ->].
  eexists _, _, _. split; [apply lookup_snoc|].
  rewrite !length_app. cbn. lia.
Qed.

(** Conversion of a new BoxList makes a new BoxList over a new tensor of
    boxes and the labels of the one converted. *)
Lemma adds_xyxy_obj n bl σ :
  (n ≤ length σ)%nat →
  fresh_boxlist n bl σ →
  adds (xyxy_obj (E:=E) bl) σ (fresh_boxlist n).
Proof.
  intros Hn (b & l & s & Hbl & Hnbl & Hnb & Hnl). unfold xyxy_obj.
  eapply adds_bind; [apply adds_load_boxlist|].
  intros [[b0 l0] s0] ? _ [-> Hbl0]. cbn in Hbl0.
  rewrite Hbl in Hbl0. injection Hbl0 as <- <- <-.
  eapply adds_bind; [apply adds_load_boxes|]. intros bs ? _ ->.
  eapply adds_bind; [apply adds_alloc|]. intros b' ? _ [-> ->].
  eapply adds_weaken; [apply adds_alloc|]. intros a ? _ [-> ->].
  eexists _, _, _. split; [apply lookup_snoc|].
  rewrite !length_app. cbn. lia.
Qed.

(** The tensors of a new BoxList, which the detector is handed, are new. *)
Lemma adds_to_dict_obj n bl σ :
  fresh_boxlist n bl σ →
  adds (to_dict_obj (E:=E) bl) σ (λ t _, (n ≤ t.1)%nat ∧ (n ≤ t.2)%nat).
Proof.
  intros (b & l & s & Hbl & Hnbl & Hnb & Hnl). unfold to_dict_obj.
  eapply adds_bind; [apply adds_load_boxlist|].
  intros [[b0 l0] s0] ? _ [-> Hbl0]. cbn in Hbl0.
  rewrite Hbl in Hbl0. injection Hbl0 as <- <- <-.
  by apply adds_ret.
Qed.

(** What the training branch does before it calls the detector: it only
    adds objects, and every tensor that it is about to hand over is one of
    them. *)
Lemma adds__targets_obj input (targets : list nat) σ :
  adds (_targets_obj (E:=E) input targets) σ
    (λ ts _, Forall (λ t, (length σ ≤ t.1)%nat ∧ (length σ ≤ t.2)%nat) ts).
Proof.
  unfold _targets_obj.
  eapply adds_bind; [apply adds_lift|]. intros xs ? _ [-> _].
  eapply adds_bind.
  { apply (adds_for_each_st _ _ _ (λ _ _, True) (fresh_boxlist (length σ))).
    - done.
    - apply fresh_boxlist_mono.
    - intros xy σ' Hp _. apply adds_add_bogus_obj. by apply prefix_length.
    - by apply Forall_true. }
  intros bls σ1 Hp1 Hbls.
  eapply adds_bind.
  { apply (adds_for_each_st _ _ _
             (λ bl σ', (length σ ≤ length σ')%nat ∧ fresh_boxlist (length σ) bl σ')
             (fresh_boxlist (length σ))).
    - intros bl σa σb [Hlen Hf] Hp. split.
      + apply prefix_length in Hp. lia.
      + by eapply fresh_boxlist_mono.
    - apply fresh_boxlist_mono.
    - intros bl σ' Hp [Hlen Hf]. by apply adds_xyxy_obj.
    - eapply Forall_impl; [exact Hbls|]. intros bl Hf. split; [|done].
      by apply prefix_length. }
  intros bls' σ2 Hp2 Hbls'.
  eapply adds_weaken.
  { apply (adds_for_each_st _ _ _ (fresh_boxlist (length σ))
             (λ t _, (length σ ≤ t.1)%nat ∧ (length σ ≤ t.2)%nat)).
    - apply fresh_boxlist_mono.
    - done.
    - intros bl σ' Hp Hf. by apply adds_to_dict_obj.
    - done. }
  done.
Qed.

Lemma adds_ind_filter_obj inds bl σ :
  adds (ind_filter_obj (E:=E) inds bl) σ (λ _ _, True).
Proof.
  unfold ind_filter_obj.
  eapply adds_bind; [apply adds_load_boxlist|].
  intros [[b l] s] ? _ [-> _].
  eapply adds_bind; [apply adds_load_boxes|]. intros bs ? _ ->.
  eapply adds_bind; [apply adds_alloc|]. intros b' ? _ [-> ->].
  eapply adds_bind; [apply adds_load_labels|]. intros ls ? _ ->.
  eapply adds_bind; [apply adds_alloc|]. intros l' ? _ [-> ->].
  eapply (adds_bind _ _ _ (λ _ _, True)).
  { destruct s as [s|]; [|by apply adds_ret].
    eapply adds_bind; [apply adds_load_scores|]. intros ss ? _ ->.
    eapply adds_bind; [apply adds_alloc|]. intros s' ? _ [-> ->].
    by apply adds_ret. }
  intros s' ? _ _.
  eapply adds_weaken; [apply adds_alloc|]. done.
Qed.

Lemma adds_to_boxlist_obj _out σ :
  adds (to_boxlist_obj (E:=E) _out) σ (λ _ _, True).
Proof.
  destruct _out as [[b l] s]. unfold to_boxlist_obj, yxyx_obj, xyxy_obj.
  eapply adds_bind; [apply adds_alloc|]. intros bl ? _ [-> ->].
  eapply adds_bind; [apply adds_load_boxlist|].
  intros [[b0 l0] s0] ? _ [-> _].
  eapply adds_bind; [apply adds_load_boxes|]. intros bs ? _ ->.
  eapply adds_bind; [apply adds_alloc|]. intros b' ? _ [-> ->].
  eapply adds_weaken; [apply adds_alloc|]. done.
Qed.

Lemma adds_remove_bogus_obj bl σ :
  adds (remove_bogus_obj (E:=E) bl) σ (λ _ _, True).
Proof.
  unfold remove_bogus_obj.
  eapply adds_bind; [apply adds_load_boxlist|].
  intros [[b l] s] ? _ [-> _].
  eapply adds_bind; [apply adds_load_labels|]. intros ls ? _ ->.
  apply adds_ind_filter_obj.
Qed.

(** What the inference branch does after the detector has answered only
    adds objects. *)
Lemma adds_inference_boxlists (out : list (nat * nat * nat)) σ :
  adds (boxlists ← for_each_st (to_boxlist_obj (E:=E)) out;
        new_boxlists ← for_each_st remove_bogus_obj boxlists;
        mret (Predictions_obj (F:=F) new_boxlists)) σ (λ _ _, True).
Proof.
  eapply adds_bind.
  { apply (adds_for_each_st _ _ _ (λ _ _, True) (λ _ _, True)); try done.
    - intros o σ' _ _. apply adds_to_boxlist_obj.
    - by apply Forall_true. }
  intros bls σ1 _ _.
  eapply adds_bind.
  { apply (adds_for_each_st _ _ _ (λ _ _, True) (λ _ _, True)); try done.
    - intros o σ' _ _. apply adds_remove_bogus_obj.
    - by apply Forall_true. }
  intros bls' σ2 _ _. by apply adds_ret.
Qed.

(** *** The two embeddings of the training branch agree *)

Lemma read_boxlist_keep σ σ' y bl :
  (∀ a o, σ !! a = Some o → σ' !! a = Some o) →
  read_boxlist σ y = Some bl → read_boxlist σ' y = Some bl.
Proof.
  intros Hkeep. unfold read_boxlist.
  destruct (σ !! y) as [[| | |b l s]|] eqn:Hy; try done.
  rewrite (Hkeep _ _ Hy).
  destruct (σ !! b) as [[bs| | |]|] eqn:Hb; try done.
  rewrite (Hkeep _ _ Hb).
  destruct (σ !! l) as [[|ls| |]|] eqn:Hl; try done.
  rewrite (Hkeep _ _ Hl).
  destruct s as [s|]; [|done].
  destruct (σ !! s) as [[| |ss|]|] eqn:Hs; try done.
  by rewrite (Hkeep _ _ Hs).
Qed.

Lemma read_boxlist_mono σ σ' y bl :
  read_boxlist σ y = Some bl → σ `prefix_of` σ' →
  read_boxlist σ' y = Some bl.
Proof.
  intros Hy Hp. eapply read_boxlist_keep; [|done].
  intros a o Ha. exact (prefix_lookup_Some _ _ _ _ Ha Hp).
Qed.

Lemma read_target_mono σ σ' t (v : Target F) :
  read_target σ t = Some v → σ `prefix_of` σ' → read_target σ' t = Some v.
Proof.
  unfold read_target. intros Ht Hp.
  destruct (σ !! t.1) as [[bs| | |]|] eqn:Hb; try done.
  destruct (σ !! t.2) as [[|ls| |]|] eqn:Hl; try done.
  by rewrite (prefix_lookup_Some _ _ _ _ Hb Hp),
    (prefix_lookup_Some _ _ _ _ Hl Hp).
Qed.

(** What a BoxList in memory consists of. *)
Lemma read_boxlist_Some σ y bl :
  read_boxlist σ y = Some bl →
  ∃ b l s,
    σ !! y = Some (BoxListObject b l s) ∧
    σ !! b = Some (BoxTensor (boxes bl)) ∧
    σ !! l = Some (LabelTensor (labels bl)) ∧
    match s with
    | None => scores bl = None
    | Some s => ∃ ss, σ !! s = Some (ScoreTensor ss) ∧ scores bl = Some ss
    end.
Proof.
  unfold read_boxlist. intros Hy.
  destruct (σ !! y) as [[| | |b l s]|]; try done.
  exists b, l, s. split; [done|].
  destruct (σ !! b) as [[bs| | |]|]; try done.
  destruct (σ !! l) as [[|ls| |]|]; try done.
  destruct s as [s|].
  - destruct (σ !! s) as [[| |ss|]|]; try done. injection Hy as <-.
    split_and!; [done..|]. by exists ss.
  - by injection Hy as <-.
Qed.

Lemma returns_ret {A} (a : A) σ (Q : A → list (object F) → Prop) :
  Q a σ → returns (mret a : Mem A) σ Q.
Proof. intros HQ. by exists a, σ. Qed.

Lemma returns_bind {A B} (m : Mem A) (f : A → Mem B) σ Q R :
  returns m σ Q →
  (∀ a σ', σ `prefix_of` σ' → Q a σ' → returns (f a) σ' R) →
  returns (m ≫= f) σ R.
Proof.
  intros (a & σ1 & Hm & Hp1 & HQ) Hf.
  destruct (Hf a σ1 Hp1 HQ) as (b & σ2 & Hfa & Hp2 & HR).
  exists b, σ2. split_and!; [|by trans σ1|done].
  by rewrite (ST_bind_Ok _ _ _ a σ1 Hm).
Qed.

Lemma returns_weaken {A} (m : Mem A) σ (Q Q' : A → list (object F) → Prop) :
  returns m σ Q →
  (∀ a σ', σ `prefix_of` σ' → Q a σ' → Q' a σ') →
  returns m σ Q'.
Proof.
  intros (a & σ' & Hm & Hp & HQ) HQ'. exists a, σ'.
  split_and!; [done..|by apply HQ'].
Qed.

Lemma returns_lift {A} (r : result E A) a σ :
  r = Ok a → returns (lift r : Mem A) σ (λ a' σ', a' = a ∧ σ' = σ).
Proof. intros ->. by exists a, σ. Qed.

Lemma returns_alloc (o : object F) σ :
  returns (alloc o : Mem nat) σ (λ a σ', a = length σ ∧ σ' = σ ++ [o]).
Proof. eexists _, _. split_and!; [done|by apply prefix_app_r|done..]. Qed.

Lemma returns_load_boxlist a b l s σ :
  σ !! a = Some (BoxListObject b l s) →
  returns (load_boxlist a : Mem _) σ (λ r σ', r = (b, l, s) ∧ σ' = σ).
Proof.
  intros Ha. exists (b, l, s), σ. unfold load_boxlist. by rewrite Ha.
Qed.

Lemma returns_load_boxes a bs σ :
  σ !! a = Some (BoxTensor bs) →
  returns (load_boxes a : Mem _) σ (λ r σ', r = bs ∧ σ' = σ).
Proof. intros Ha. exists bs, σ. unfold load_boxes. by rewrite Ha. Qed.

Lemma returns_load_labels a ls σ :
  σ !! a = Some (LabelTensor ls) →
  returns (load_labels a : Mem _) σ (λ r σ', r = ls ∧ σ' = σ).
Proof. intros Ha. exists ls, σ. unfold load_labels. by rewrite Ha. Qed.

(** A loop over arguments that stand for the values [vs]. *)
Lemma returns_for_each_st {A B V W} (f : A → Mem B) (g : V → W)
    (P : A → V → list (object F) → Prop)
    (Q : B → W → list (object F) → Prop) l vs σ :
  (∀ a v σ1 σ2, P a v σ1 → σ1 `prefix_of` σ2 → P a v σ2) →
  (∀ b w σ1 σ2, Q b w σ1 → σ1 `prefix_of` σ2 → Q b w σ2) →
  (∀ a v σ', P a v σ' → returns (f a) σ' (λ b σ'', Q b (g v) σ'')) →
  Forall2 (λ a v, P a v σ) l vs →
  returns (for_each_st f l) σ
    (λ bs σ', Forall2 (λ b w, Q b w σ') bs (map g vs)).
Proof.
  intros HP HQ Hf Hl. revert vs σ Hl.
  induction l as [|a l IH]; intros vs σ Hl.
  - apply Forall2_nil_inv_l in Hl as ->. by apply returns_ret.
  - apply Forall2_cons_inv_l in Hl as (v & vs' & Ha & Hl & ->).
    cbn [for_each_st].
    eapply returns_bind; [by apply Hf|].
    intros b σ1 Hp1 Hb.
    eapply returns_bind.
    + apply IH. eapply Forall2_impl; [exact Hl|].
      intros a' v' Ha'. exact (HP a' v' σ σ1 Ha' Hp1).
    + intros bs σ2 Hp2 Hbs. apply returns_ret. cbn.
      apply Forall2_cons. split; [exact (HQ b _ σ1 σ2 Hb Hp2)|done].
Qed.

Lemma returns_add_bogus_obj x y h w bl σ :
  unpack_hw (E:=E) x = Ok (h, w) →
  read_boxlist σ y = Some bl →
  returns (add_bogus_obj (E:=E) (x, y)) σ
    (λ a σ', read_boxlist σ' a = Some (with_bogus h w bl)).
Proof.
  intros Hx Hy.
  destruct (read_boxlist_Some σ y bl Hy) as (b & l & s & Hyo & Hb & Hl & _).
  unfold add_bogus_obj.
  eapply returns_bind; [by apply returns_lift|].
  intros ? ? _ [-> ->].
  eapply returns_bind; [by apply returns_load_boxlist|].
  intros ? ? _ [-> ->].
  eapply returns_bind; [by apply returns_load_boxes|].
  intros ? ? _ [-> ->].
  eapply returns_bind; [apply returns_alloc|]. intros b' ? _ [-> ->].
  eapply returns_bind.
  { apply returns_load_labels. by apply lookup_app_l_Some. }
  intros ? ? _ [-> ->].
  eapply returns_bind; [apply returns_alloc|]. intros l' ? _ [-> ->].
  eapply returns_weaken; [apply returns_alloc|]. intros a ? _ [-> ->].
  set (B := BoxTensor (boxes bl ++ [bogus_box h w])).
  set (L := LabelTensor (labels bl ++ [0])).
  set (O := BoxListObject _ _ None).
  assert (HB : (((σ ++ [B]) ++ [L]) ++ [O]) !! length σ = Some B).
  { rewrite <- !(assoc_L (++)). by apply list_lookup_middle. }
  assert (HL : (((σ ++ [B]) ++ [L]) ++ [O]) !! length (σ ++ [B]) = Some L).
  { rewrite <- (assoc_L (++) (σ ++ [B])). by apply list_lookup_middle. }
  unfold read_boxlist. rewrite lookup_snoc. subst O. cbv beta iota.
  by rewrite HB, HL.
Qed.

Lemma returns_xyxy_obj bl v σ :
  read_boxlist σ bl = Some v →
  returns (xyxy_obj (E:=E) bl) σ (λ a σ', read_boxlist σ' a = Some (xyxy v)).
Proof.
  intros Hbl.
  destruct (read_boxlist_Some σ bl v Hbl) as (b & l & s & Hblo & Hb & Hl & Hs).
  unfold xyxy_obj.
  eapply returns_bind; [by apply returns_load_boxlist|].
  intros ? ? _ [-> ->].
  eapply returns_bind; [by apply returns_load_boxes|].
  intros ? ? _ [-> ->].
  eapply returns_bind; [apply returns_alloc|]. intros b' ? _ [-> ->].
  eapply returns_weaken; [apply returns_alloc|]. intros a ? _ [-> ->].
  set (B := BoxTensor (map swap_order (boxes v))).
  assert (HB : ((σ ++ [B]) ++ [BoxListObject (length σ) l s]) !! length σ
               = Some B).
  { rewrite <- (assoc_L (++)). by apply list_lookup_middle. }
  assert (Hold : ∀ i o, σ !! i = Some o →
            ((σ ++ [B]) ++ [BoxListObject (length σ) l s]) !! i = Some o).
  { intros i o Hi. by do 2 apply lookup_app_l_Some. }
  unfold read_boxlist. rewrite lookup_snoc. cbv beta iota.
  rewrite HB, (Hold _ _ Hl). unfold xyxy.
  destruct s as [s|].
  - destruct Hs as (ss & Hs & ->). by rewrite (Hold _ _ Hs).
  - by rewrite Hs.
Qed.

Lemma returns_to_dict_obj bl v σ :
  read_boxlist σ bl = Some v →
  returns (to_dict_obj (E:=E) bl) σ
    (λ t σ', read_target σ' t = Some (to_dict v)).
Proof.
  intros Hbl.
  destruct (read_boxlist_Some σ bl v Hbl) as (b & l & s & Hblo & Hb & Hl & _).
  unfold to_dict_obj.
  eapply returns_bind; [by apply returns_load_boxlist|].
  intros ? ? _ [-> ->].
  apply returns_ret. unfold read_target. cbn. by rewrite Hb, Hl.
Qed.

Lemma Forall2_zip_targets (xs : list (Tensor F)) ys (vs : list (BoxList F))
    h w σ :
  Forall (λ x, unpack_hw (E:=E) x = Ok (h, w)) xs →
  Forall2 (λ y v, read_boxlist σ y = Some v) ys vs →
  Forall2 (λ xy v, unpack_hw (E:=E) xy.1 = Ok (h, w) ∧
                   read_boxlist σ xy.2 = Some v)
    (zip xs ys) (take (length xs) vs).
Proof.
  intros Hxs. revert ys vs.
  induction Hxs as [|x xs Hx _ IH]; intros ys vs Hys; [by constructor|].
  destruct Hys as [|y v ys vs Hy Hys]; [by constructor|].
  cbn. constructor; [done|by apply IH].
Qed.

(** The training branch over the memory computes what the training branch
    over values computes: when the caller's addresses stand for the
    targets [vs], the detector is handed tensors that stand for [_targets]
    of the targets with their bogus boxes. *)
Lemma _targets_obj_refines input ys (vs : list (BoxList F)) σ n c h w :
  shape input = [n; c; h; w] →
  Forall2 (λ y v, read_boxlist σ y = Some v) ys vs →
  new_targets (E:=E) input vs = Ok (map (with_bogus h w) (take n vs)) ∧
  returns (_targets_obj (E:=E) input ys) σ
    (λ ts σ',
       Forall2 (λ t v, read_target σ' t = Some v) ts
         (_targets (map (with_bogus h w) (take n vs)))).
Proof.
  intros Hs Hys. split; [by apply new_targets_Ok with c|].
  unfold _targets_obj.
  eapply returns_bind.
  { apply returns_lift. by apply (tensor_iter_Ok input n [c; h; w]). }
  intros ? ? _ [-> ->].
  eapply returns_bind.
  { apply (returns_for_each_st add_bogus_obj (with_bogus h w)
             (λ xy v σ', unpack_hw (E:=E) xy.1 = Ok (h, w) ∧
                         read_boxlist σ' xy.2 = Some v)
             (λ b v σ', read_boxlist σ' b = Some v) _ (take n vs)).
    - intros xy v σ1 σ2 [Hx Hy] Hp. split; [done|].
      by eapply read_boxlist_mono.
    - intros b v σ1 σ2 Hb Hp. by eapply read_boxlist_mono.
    - intros [x y] v σ' [Hx Hy]. by apply returns_add_bogus_obj.
    - replace n with (length (map (select input) (seq 0 n))) at 2
        by (by rewrite length_map, length_seq).
      apply Forall2_zip_targets; [|done].
      apply Forall_forall. intros x Hx.
      apply list_elem_of_fmap in Hx as (i & -> & _).
      by eapply unpack_hw_select. }
  intros bls σ1 Hp1 Hbls.
  eapply returns_bind.
  { apply (returns_for_each_st xyxy_obj xyxy
             (λ b v σ', read_boxlist σ' b = Some v)
             (λ b v σ', read_boxlist σ' b = Some v)
             bls (map (with_bogus h w) (take n vs)) σ1).
    - intros b v σa σb Hb Hp. by eapply read_boxlist_mono.
    - intros b v σa σb Hb Hp. by eapply read_boxlist_mono.
    - intros b v σ' Hb. by apply returns_xyxy_obj.
    - exact Hbls. }
  intros bls' σ2 Hp2 Hbls'.
  eapply returns_weaken.
  { apply (returns_for_each_st to_dict_obj to_dict
             (λ b v σ', read_boxlist σ' b = Some v)
             (λ t v σ', read_target σ' t = Some v)
             bls' (map xyxy (map (with_bogus h w) (take n vs))) σ2).
    - intros b v σa σb Hb Hp. by eapply read_boxlist_mono.
    - intros t v σa σb Ht Hp. by eapply read_target_mono.
    - intros b v σ' Hb. by apply returns_to_dict_obj.
    - exact Hbls'. }
  done.
Qed.

(** C10: [forward] leaves every object of the caller as it is. Whatever the
    branch and whether the call returns or raises, each object that was in
    memory before the call - each target BoxList, its tensor of boxes, its
    tensor of labels - is there unchanged after it, as long as the detector
    writes only to the tensors that it is handed. In the training branch
    those are tensors made during the call: the bogus box and its label are
    appended in new tensors of new BoxLists. *)
Theorem forward_never_mutates_a_caller_boxlist model input targets σ :
  writes_only_its_arguments model →
  (∀ a o, σ !! a = Some o →
     (forward_obj model input targets σ).2 !! a = Some o) ∧
  (∀ y bl, read_boxlist σ y = Some bl →
     read_boxlist (forward_obj model input targets σ).2 y = Some bl) ∧
  (truthy targets = true →
   ∃ r σ1,
     _targets_obj (E:=E) input (default [] targets) σ = (r, σ1) ∧
     σ `prefix_of` σ1 ∧
     ∀ ts, r = Ok ts →
       Forall (λ t, (length σ ≤ t.1)%nat ∧ (length σ ≤ t.2)%nat) ts ∧
       forward_obj model input targets σ
       = (loss_dict ← call_with_targets_obj model input ts;
          mret (Losses_obj (add_total_loss loss_dict))) σ1).
Proof.
  intros [Htrain Hinfer].
  assert (Hkeep : ∀ a o, σ !! a = Some o →
            (forward_obj model input targets σ).2 !! a = Some o).
  { intros a o Ha. unfold forward_obj.
    destruct (truthy targets).
    - destruct (adds__targets_obj input (default [] targets) σ) as [Hp Hts].
      unfold mbind at 1, ST_mbind, ST_bind.
      destruct (_targets_obj input (default [] targets) σ) as [[ts|e] σ1];
        cbn in Hp, Hts |- *; [|exact (prefix_lookup_Some _ _ _ _ Ha Hp)].
      specialize (Hts ts eq_refl).
      assert (Ha1 : (call_with_targets_obj model input ts σ1).2 !! a = Some o).
      { apply Htrain; [exact (prefix_lookup_Some _ _ _ _ Ha Hp)|].
        intros t Ht. apply lookup_lt_Some in Ha.
        rewrite Forall_forall in Hts. specialize (Hts t Ht). lia. }
      unfold mbind, ST_mbind, ST_bind.
      by destruct (call_with_targets_obj model input ts σ1) as [[d|e] σ2].
    - unfold mbind at 1, ST_mbind, ST_bind.
      specialize (Hinfer input σ a o Ha).
      destruct (call_obj model input σ) as [[out|e] σ1]; cbn in Hinfer |- *;
        [|done].
      destruct (adds_inference_boxlists out σ1) as [Hp _].
      exact (prefix_lookup_Some _ _ _ _ Hinfer Hp). }
  split_and!.
  - done.
  - intros y bl. by apply read_boxlist_keep.
  - intros Ht.
    destruct (adds__targets_obj input (default [] targets) σ) as [Hp Hts].
    destruct (_targets_obj input (default [] targets) σ) as [r σ1] eqn:Hprep.
    cbn in Hp, Hts.
    exists r, σ1. split_and!; [done..|].
    intros ts ->. split; [by apply Hts|].
    unfold forward_obj. rewrite Ht.
    by rewrite (ST_bind_Ok _ _ _ ts σ1 Hprep).
Qed.
End Aliasing.

(** * Worked instances *)

Section Instances.
Import Examples.

(** Losses in [float32]: the total is the sum in the order of the dict,
    [((((0 + 1) + 1) + 2^24) + 0)], which is [2^24 + 2]. *)
Lemma total_loss_is_sum_of_components_witness :
  ∃ record,
    forward float32_detector (float32_batch 1 4 5)
      (Some [mkBoxList [] [] None])
    = Ok (Losses record) ∧
    dict_get "total_loss" record = Some (f32 16777218).
Proof.
  destruct (total_loss_is_sum_of_components (F:=float32) float32_detector
              (float32_batch 1 4 5) [mkBoxList [] [] None]
              [with_bogus 4 5 (mkBoxList [] [] None)]
              [("loss_classifier", f32 1); ("loss_box_reg", f32 1);
               ("loss_objectness", f32 16777216);
               ("loss_rpn_box_reg", f32 0)])
    as (b & c & o & r & v1 & v2 & v3 & v4 & record
        & _ & _ & _ & _ & Hv & _ & Hf & Ht & _).
  - discriminate.
  - reflexivity.
  - reflexivity.
  - apply perm_swap.
  - exists record. split; [exact Hf|].
    injection Hv as <- <- <- <-. rewrite Ht. vm_compute. reflexivity.
Defined.

(** In [float32] the order of the additions matters: the same four losses
    added with the large one first lose the two small ones. *)
Lemma float32_sum_depends_on_order :
  py_sum [f32 1; f32 1; f32 16777216; f32 0] = f32 16777218 ∧
  py_sum [f32 16777216; f32 1; f32 1; f32 0] = f32 16777216.
Proof. split; vm_compute; reflexivity. Qed.


(** One image and two targets: the detector is handed one target. *)
Lemma mismatch_is_left_to_detector_witness :
  ∃ aug,
    new_targets (E:=string) (batch 1 4 5 0) [three_boxes; no_boxes] = Ok aug ∧
    length (_targets aug) = 1%nat.
Proof.
  destruct (mismatch_is_left_to_detector (F:=Z) strict_detector
              (batch 1 4 5 0) [three_boxes; no_boxes] 1 3 4 5)
    as (aug & Haug & _ & Hlen & _).
  - reflexivity.
  - discriminate.
  - exists aug. split; [exact Haug|exact Hlen].
Defined.

(** C7, the claim as it stands: [strict_detector] refuses every target
    list that is not of the length of the batch, and yet [forward] returns
    the losses for one image and two targets, the second target dropped. *)
Lemma excess_targets_are_dropped :
  length [three_boxes; no_boxes] ≠ 1%nat ∧
  (∀ targets : list (Target Z),
     length targets ≠ 1%nat →
     call_with_targets strict_detector (batch 1 4 5 0) targets
     = Raise (Collaborator "batch size mismatch")) ∧
  new_targets (E:=string) (batch 1 4 5 0) [three_boxes; no_boxes]
  = Ok [with_bogus 4 5 three_boxes] ∧
  forward strict_detector (batch 1 4 5 0) (Some [three_boxes; no_boxes])
  = Ok (Losses [("loss_classifier", 3); ("loss_box_reg", 5);
                ("loss_objectness", 7); ("loss_rpn_box_reg", 11);
                ("total_loss", 26)]).
Proof.
  split_and!; [done| |done..].
  intros targets Hlen. cbn. by rewrite decide_False.
Qed.

(** C5, at an empty batch with an empty list of targets: [forward] answers
    with predictions (none, for no image), not with losses. *)
Lemma empty_batch_with_empty_targets :
  forward strict_detector (batch 0 4 5 0) (Some []) = Ok (Predictions []) ∧
  call_with_targets strict_detector (batch 0 4 5 0) []
  = Ok [("loss_classifier", 3); ("loss_box_reg", 5);
        ("loss_objectness", 7); ("loss_rpn_box_reg", 11)].
Proof. split; reflexivity. Qed.

(** Five boxes of which two are background. *)
Lemma inference_drops_background_boxes_witness :
  ∃ bl,
    forward strict_detector (batch 1 4 5 0) None = Ok (Predictions [bl]) ∧
    (0 ∉ labels bl) ∧ length (boxes bl) = 3%nat.
Proof.
  destruct (inference_drops_background_boxes (F:=Z) strict_detector
              (batch 1 4 5 0) None
              [mkDetection [(1, 2, 3, 4); (0, 0, 9, 9); (2, 2, 5, 6);
                            (0, 0, 8, 8); (4, 1, 7, 3)]
                 [2; 0; 1; 0; 3] [90; 80; 70; 60; 50]])
    as (bls & Hf & Hlen & Hnth).
  - reflexivity.
  - reflexivity.
  - intros o Ho. apply list_elem_of_singleton in Ho as ->. split; reflexivity.
  - destruct bls as [|bl [|? ?]]; [discriminate| |discriminate].
    exists bl. split; [exact Hf|].
    destruct (Hnth 0%nat _ eq_refl) as (bl' & Hbl' & H0 & Hbs & _).
    injection Hbl' as <-. split; [exact H0|exact Hbs].
Defined.

(** Every box is background: the BoxList is empty. *)
Lemma all_background_gives_empty_boxlist :
  forward background_detector (batch 1 4 5 0) None
  = Ok (Predictions [mkBoxList [] [] (Some [])]).
Proof. reflexivity. Qed.

(** The backbone built from the network in miniature. *)
Lemma toy_backbone :
  resnet_fpn_backbone toy_dict (λ _, 0) "resnet18" true []
  = (Ok {| body := observed (freeze_net toy_resnet) 0;
           return_layers := [("layer1", 0%nat); ("layer2", 1%nat);
                             ("layer3", 2%nat); ("layer4", 3%nat)];
           in_channels_list := [64; 128; 256; 512]%nat;
           out_channels := 256 |},
     [{["layer1" := 64%nat; "layer2" := 128%nat;
        "layer3" := 256%nat; "layer4" := 512%nat]}]).
Proof. by vm_compute. Qed.

(** C4, the claim as it stands: the parameter of the stem is trainable when
    the network is constructed and frozen in the backbone that is built
    from it. *)
Lemma stem_parameter_is_frozen :
  ∃ fpn heap,
    resnet_fpn_backbone toy_dict (λ _, 0) "resnet18" true [] = (Ok fpn, heap) ∧
    named_parameters toy_resnet !! 0%nat = Some ("conv1.weight", true) ∧
    named_parameters (body fpn) !! 0%nat = Some ("conv1.weight", false).
Proof. eexists _, _. split; [apply toy_backbone|]. by split. Qed.

Lemma freezing_policy_witness :
  ∃ fpn heap,
    resnet_fpn_backbone toy_dict (λ _, 0) "resnet18" true [] = (Ok fpn, heap) ∧
    named_parameters (body fpn) !! 1%nat = Some ("layer1.0.conv1.weight", false) ∧
    named_parameters (body fpn) !! 3%nat = Some ("layer2.0.conv1.weight", true).
Proof.
  eexists _, _. split; [apply toy_backbone|].
  destruct (freezing_policy toy_dict (λ _, 0) "resnet18" true [] _ _ toy_backbone)
    as (constructor & backbone & Hd & Hc & _ & Hp).
  injection Hd as <-. injection Hc as <-. split.
  - destruct (Hp 1%nat "layer1.0.conv1.weight" true) as [Hfrozen _].
    + reflexivity.
    + apply Hfrozen; reflexivity.
  - destruct (Hp 3%nat "layer2.0.conv1.weight" true) as [_ Hkept].
    + reflexivity.
    + apply Hkept. left. reflexivity.
Defined.

(** C6, the claim as it stands: the stages of the network have no hooks
    when it is constructed and one each in the backbone that is built from
    it; and a forward pass on that backbone, started with an empty dict in
    place of the dict of the build, fills the dict in again. *)
Lemma observers_are_not_discarded :
  ∃ fpn heap,
    resnet_fpn_backbone toy_dict (λ _, 0) "resnet18" true [] = (Ok fpn, heap) ∧
    (∀ s, forward_hooks toy_resnet s = []) ∧
    (∀ s, forward_hooks (body fpn) s = [mk_save_output 0 (stage_name s)]) ∧
    ((call_model (Examples.batch 1 64 64 7) (body fpn, [∅])).2.2
     = [{["layer1" := 64%nat; "layer2" := 128%nat;
          "layer3" := 256%nat; "layer4" := 512%nat]}]).
Proof.
  eexists _, _. split; [apply toy_backbone|]. split_and!.
  - done.
  - by intros [].
  - by vm_compute.
Qed.

Lemma observers_stay_attached_witness :
  (∀ s, forward_hooks (observed toy_resnet 0) s
        = [make_save_output 0 (stage_name s)]) ∧
  (∃ heap2,
     call_model (Examples.batch 1 64 64 7) (observed toy_resnet 0, [∅])
     = (plain_forward toy_resnet (Examples.batch 1 64 64 7),
        (observed toy_resnet 0, heap2)) ∧
     length heap2 = 1%nat) ∧
  (∃ y heap2,
     call_model (Examples.batch 1 64 64 7) (observed toy_resnet 0, [∅; ∅])
     = (Ok y, (observed toy_resnet 0, heap2)) ∧
     heap2 !! 0%nat
     = Some {["layer1" := 64%nat; "layer2" := 128%nat;
              "layer3" := 256%nat; "layer4" := 512%nat]} ∧
     heap2 !! 1%nat = Some ∅).
Proof.
  destruct (observers_stay_attached (λ _, 0) toy_resnet []
              (Ok [64; 128; 256; 512]%nat) (observed toy_resnet 0)
              [{["layer1" := 64%nat; "layer2" := 128%nat;
                 "layer3" := 256%nat; "layer4" := 512%nat]}])
    as (Hhooks & _ & _ & _ & _ & Hlater & Hstores).
  - by vm_compute.
  - split; [exact Hhooks|]. split.
    + apply (Hlater (Examples.batch 1 64 64 7) [∅]).
      intros [] t [= <-]; by eexists.
    + destruct (Hstores
                  (λ s hook Hin,
                     match s return hook ∈ forward_hooks toy_resnet s → _ with
                     | layer1 | layer2 | layer3 | layer4 =>
                         λ Hin, False_ind _ (proj1 (elem_of_nil hook) Hin)
                     end Hin)
                  (Examples.batch 1 64 64 7) [∅; ∅]
                  (mkTensor [1; 64; 16; 16]%nat (λ _, 7))
                  (mkTensor [1; 128; 8; 8]%nat (λ _, 7))
                  (mkTensor [1; 256; 4; 4]%nat (λ _, 7))
                  (mkTensor [1; 512; 2; 2]%nat (λ _, 7))
                  (mkTensor [1; 1000]%nat (λ _, 7))
                  64%nat 128%nat 256%nat 512%nat
                  eq_refl eq_refl eq_refl eq_refl eq_refl
                  eq_refl eq_refl eq_refl eq_refl)
        as (heap2 & Hcall & Hdict & Hrest).
      exists (mkTensor [1; 1000]%nat (λ _, 7)), heap2. split_and!.
      * exact Hcall.
      * refine (eq_trans Hdict _). vm_compute. reflexivity.
      * refine (eq_trans (Hrest 1%nat _ _) _).
        -- cbn. lia.
        -- intros s hook Hin. destruct s; by apply elem_of_nil in Hin.
        -- reflexivity.
Defined.

(** C8, the claim as it stands: over memory that holds ones the input of
    the forward pass is not zero, which a network that accepts only a zero
    input shows by refusing it. *)
Lemma dummy_input_is_uninitialised :
  data (dummy_input (F:=Z) (λ _, 1)) [0; 0; 0; 0]%nat = 1 ∧
  data (torch_zeros (F:=Z) [1; 3; 128; 128]%nat) [0; 0; 0; 0]%nat = 0 ∧
  dummy_input (F:=Z) (λ _, 1) ≠ torch_zeros [1; 3; 128; 128]%nat ∧
  (get_out_channels (λ _, 1) (zero_only_resnet, [])).1
  = Raise (Collaborator "input is not zero") ∧
  (get_out_channels (λ _, 0) (zero_only_resnet, [])).1
  = Ok [64; 128; 256; 512]%nat.
Proof.
  split_and!; [done|done| |done|done].
  intros Heq. apply (f_equal (λ t, data t [0; 0; 0; 0]%nat)) in Heq.
  discriminate Heq.
Qed.

Lemma get_out_channels_records_stage_channels_witness :
  shape (dummy_input (F:=Z) (λ _, 1)) = [1; 3; 128; 128]%nat ∧
  (get_out_channels (λ _, 1) (toy_resnet, [])).1 = Ok [64; 128; 256; 512]%nat.
Proof.
  destruct (get_out_channels_records_stage_channels (λ _, 1) toy_resnet []
              (mkTensor [1; 64; 32; 32]%nat (λ _, 1))
              (mkTensor [1; 128; 16; 16]%nat (λ _, 1))
              (mkTensor [1; 256; 8; 8]%nat (λ _, 1))
              (mkTensor [1; 512; 4; 4]%nat (λ _, 1))
              (mkTensor [1; 1000]%nat (λ _, 1))
              64%nat 128%nat 256%nat 512%nat)
    as (Hshape & _ & Hres).
  - intros s hook Hin. destruct s; cbn in Hin; by apply elem_of_nil in Hin.
  - reflexivity.
  - reflexivity.
  - reflexivity.
  - reflexivity.
  - reflexivity.
  - reflexivity.
  - reflexivity.
  - reflexivity.
  - reflexivity.
  - split; [exact Hshape|exact Hres].
Defined.

Lemma clobbering_detector_writes_only_its_arguments :
  writes_only_its_arguments clobbering_detector.
Proof.
  split.
  - intros input targets σ a o Ha Hne. cbn.
    induction targets as [|t targets IH]; [done|]. cbn.
    destruct (Hne t) as [Hne1 Hne2]; [by left|].
    rewrite !list_lookup_insert_ne by done.
    apply IH. intros t' Ht'. apply Hne. by right.
  - intros input σ a o Ha. cbn. by apply lookup_app_l_Some.
Qed.

(** Two targets in memory, and a detector that empties what it is handed:
    the targets read after the call as before it. *)
Lemma forward_never_mutates_a_caller_boxlist_witness :
  read_boxlist caller_memory 2 = Some three_boxes ∧
  read_boxlist caller_memory 5 = Some no_boxes ∧
  read_boxlist
    (forward_obj clobbering_detector (batch 2 4 5 0) (Some [2; 5]%nat)
       caller_memory).2 2 = Some three_boxes ∧
  read_boxlist
    (forward_obj clobbering_detector (batch 2 4 5 0) (Some [2; 5]%nat)
       caller_memory).2 5 = Some no_boxes.
Proof.
  destruct (forward_never_mutates_a_caller_boxlist clobbering_detector
              (batch 2 4 5 0) (Some [2; 5]%nat) caller_memory
              clobbering_detector_writes_only_its_arguments)
    as (_ & Hread & _).
  split_and!.
  - reflexivity.
  - reflexivity.
  - apply Hread. reflexivity.
  - apply Hread. reflexivity.
Defined.
End Instances.
(** * Further properties *)

(** ** The freezing loop *)

Section Freezing_loop.
Implicit Types (params : list (string * bool)) (name : string).

(** X1: the freezing loop never switches a gradient on and moves no
    parameter: the parameter at a position keeps its name, and it is
    trainable afterwards only if it was trainable before and its name
    contains one of [layer2], [layer3], [layer4]. *)
Theorem freeze_layers_never_enables params i name requires_grad' :
  freeze_layers params !! i = Some (name, requires_grad') →
  length (freeze_layers params) = length params ∧
  ∃ requires_grad,
    params !! i = Some (name, requires_grad) ∧
    (requires_grad' = true →
     requires_grad = true ∧
     (str_in "layer2" name = true ∨ str_in "layer3" name = true ∨
      str_in "layer4" name = true)).
Proof.
  unfold freeze_layers. rewrite length_map, list_lookup_fmap.
  intros Hi. split; [done|].
  destruct (params !! i) as [[name0 g]|]; [|done]. cbn in Hi.
  destruct (frozen_name name0) eqn:Hf; injection Hi as <- <-.
  - exists g. split; [done|]. done.
  - exists g. split; [done|]. intros ->. split; [done|].
    unfold frozen_name in Hf.
    destruct (str_in "layer2" name0); [by left|].
    destruct (str_in "layer3" name0); [by right; left|].
    destruct (str_in "layer4" name0); [by right; right|done].
Qed.

(** X2: freezing twice is freezing once. *)
Theorem freeze_layers_idempotent params :
  freeze_layers (freeze_layers params) = freeze_layers params.
Proof.
  unfold freeze_layers. rewrite map_map. apply map_ext.
  intros [name g]. destruct (frozen_name name) eqn:Hf; by rewrite Hf.
Qed.
End Freezing_loop.

(** ** Errors of [forward] *)

Section Forward_errors.
Context {F : Type} `{Scalar F} {E : Type}.
Implicit Types (model : FasterRCNN F E) (input x : Tensor F).
Implicit Types (ys : list (BoxList F)) (targets : option (list (BoxList F))).


Lemma add_bogus_Raise x (y : BoxList F) e :
  unpack_hw (E:=E) x = Raise e → add_bogus (E:=E) (x, y) = Raise e.
Proof. intros Hx. unfold add_bogus. by rewrite Hx. Qed.

Lemma for_each_add_bogus_ValueError (xs : list (Tensor F)) ys :
  xs ≠ [] → ys ≠ [] →
  (∀ x, x ∈ xs → unpack_hw (E:=E) x = Raise ValueError) →
  for_each (E:=E) add_bogus (zip xs ys) = Raise ValueError.
Proof.
  intros Hxs Hys Hx.
  destruct xs as [|x xs]; [done|]. destruct ys as [|y ys]; [done|].
  change (zip (x :: xs) (y :: ys)) with ((x, y) :: zip xs ys).
  by rewrite for_each_cons, (add_bogus_Raise x y ValueError) by (apply Hx; left).
Qed.

(** X4: in the training branch a malformed batch is refused before the
    detector is called. A 0-d tensor cannot be iterated ([TypeError]); a
    batch with at least one image whose images are not 3-d cannot be
    unpacked into height and width ([ValueError]). *)
Theorem forward_refuses_malformed_batch model input ys :
  ys ≠ [] →
  (shape input = [] → forward model input (Some ys) = Raise TypeError) ∧
  (∀ n rest,
     shape input = S n :: rest → length rest ≠ 3%nat →
     forward model input (Some ys) = Raise ValueError).
Proof.
  intros Hys. destruct ys as [|y ys]; [done|]. split.
  - intros Hs. rewrite forward_training.
    unfold new_targets, tensor_iter. by rewrite Hs.
  - intros n rest Hs Hrest. rewrite forward_training.
    unfold new_targets.
    rewrite (tensor_iter_Ok input (S n) rest) by done. cbn [mbind result_mbind result_bind].
    rewrite for_each_add_bogus_ValueError; [done|done|done|].
    intros x Hx. apply list_elem_of_fmap in Hx as (i & -> & _).
    unfold unpack_hw, select. cbn. rewrite Hs. cbn.
    destruct rest as [|c [|h [|w [|? ?]]]]; done.
Qed.

Lemma for_each_add_bogus_ext (xs : list (Tensor F)) ys ys' :
  map boxes ys = map boxes ys' →
  map labels ys = map labels ys' →
  for_each (E:=E) add_bogus (zip xs ys) = for_each add_bogus (zip xs ys').
Proof.
  revert ys ys'. induction xs as [|x xs IH]; intros ys ys' Hb Hl; [done|].
  destruct ys as [|y ys], ys' as [|y' ys']; try done.
  injection Hb as Hb0 Hb. injection Hl as Hl0 Hl.
  change (zip (x :: xs) (y :: ys)) with ((x, y) :: zip xs ys).
  change (zip (x :: xs) (y' :: ys')) with ((x, y') :: zip xs ys').
  rewrite !for_each_cons, (IH ys ys') by done.
  unfold add_bogus. by rewrite Hb0, Hl0.
Qed.

(** X5: the training branch reads only the boxes and the labels of the
    targets: whatever else they carry (scores), two lists of targets with
    the same boxes and labels give the same answer. *)
Theorem forward_ignores_target_scores model input ys ys' :
  map boxes ys = map boxes ys' →
  map labels ys = map labels ys' →
  forward model input (Some ys) = forward model input (Some ys').
Proof.
  intros Hb Hl.
  destruct ys as [|y ys], ys' as [|y' ys']; try done.
  rewrite !forward_training. unfold new_targets.
  destruct (tensor_iter input) as [xs|e]; [|done]. cbn [mbind result_mbind result_bind].
  by rewrite (for_each_add_bogus_ext xs (y :: ys) (y' :: ys')).
Qed.

(** X16: the kind of answer goes with the branch. [forward] returns losses
    only for a list of targets that is not empty, and predictions only for
    no targets or an empty list of them. *)
Theorem forward_answer_by_branch model input targets :
  (∀ loss_dict,
     forward model input targets = Ok (Losses loss_dict) →
     ∃ y ys, targets = Some (y :: ys)) ∧
  (∀ new_boxlists,
     forward model input targets = Ok (Predictions new_boxlists) →
     targets = None ∨ targets = Some []).
Proof.
  destruct targets as [[|y ys]|].
  - split; [|by right]. intros d. rewrite forward_inference by done.
    by destruct (call model input).
  - split; [by exists y, ys|]. intros bls. rewrite forward_training.
    destruct (new_targets input (y :: ys)) as [aug|e]; [|done]. cbn.
    by destruct (call_with_targets model input (_targets aug)).
  - split; [|by left]. intros d. rewrite forward_inference by done.
    by destruct (call model input).
Qed.
End Forward_errors.

(** ** The bogus boxes *)

Section Bogus_boxes.
Context {F : Type} `{Scalar F} {E : Type}.
Implicit Types (model : FasterRCNN F E) (input : Tensor F).
Implicit Types (bs : list (Box F)) (ls : list Z) (ss : list F).

Lemma rows_cons (b : Box F) bs l ls s ss :
  rows (b :: bs) (l :: ls) (s :: ss) = (b, l, s) :: rows bs ls ss.
Proof. done. Qed.

(** Filtering the three arrays of a detection by its labels is filtering
    its rows. *)
Lemma rows_mask_select bs ls ss :
  length bs = length ls → length ss = length ls →
  rows (mask_select (non_zero_inds ls) (map swap_order bs))
    (mask_select (non_zero_inds ls) ls)
    (mask_select (non_zero_inds ls) ss)
  = map (λ r, (swap_order r.1.1, r.1.2, r.2))
      (filter (λ r, r.1.2 ≠ 0) (rows bs ls ss)).
Proof.
  revert bs ss. induction ls as [|l ls IH]; intros [|b bs] [|s ss] Hb Hs;
    try done.
  rewrite rows_cons, filter_cons.
  cbn [non_zero_inds map mask_select]. fold (non_zero_inds ls).
  injection Hb as Hb. injection Hs as Hs.
  destruct (Z.eqb_spec l 0) as [->|Hl]; cbn [negb].
  - rewrite decide_False by (cbn; naive_solver). by apply IH.
  - rewrite decide_True by done. cbn [map]. rewrite rows_cons.
    f_equal. by apply IH.
Qed.

(** X6: the inference branch keeps the rows of a detection together and
    in order: when the arrays of each detection are of one length, the
    boxes, labels and scores of the BoxList returned for it are, row by
    row, those of the detection whose label is not [0], each box with its
    coordinates in the other ordering. *)
Theorem inference_keeps_rows_aligned model input targets out :
  truthy targets = false →
  call model input = Ok out →
  (∀ o, o ∈ out →
     length (out_boxes o) = length (out_labels o) ∧
     length (out_scores o) = length (out_labels o)) →
  ∃ bls,
    forward model input targets = Ok (Predictions bls) ∧
    Forall2
      (λ o bl, ∃ ss,
         scores bl = Some ss ∧
         rows (boxes bl) (labels bl) ss
         = map (λ r, (swap_order r.1.1, r.1.2, r.2))
             (filter (λ r, r.1.2 ≠ 0)
                (rows (out_boxes o) (out_labels o) (out_scores o))))
      out bls.
Proof.
  intros Ht Hcall Hwf.
  exists (map remove_bogus (map to_boxlist out)). split.
  - by rewrite forward_inference, Hcall.
  - rewrite map_map. apply Forall2_fmap_r, Forall_Forall2_diag.
    apply Forall_forall. intros o Ho. destruct (Hwf o Ho) as [Hb Hs].
    eexists. split; [reflexivity|]. cbn. by apply rows_mask_select.
Qed.

Lemma mask_select_snoc_zero {A} ls (l : list A) (a : A) :
  length l = length ls →
  mask_select (non_zero_inds (ls ++ [0])) (l ++ [a])
  = mask_select (non_zero_inds ls) l.
Proof.
  revert l. induction ls as [|z ls IH]; intros [|a' l] Hlen; try done.
  cbn [app non_zero_inds map mask_select].
  fold (non_zero_inds ls). fold (non_zero_inds (ls ++ [0])).
  injection Hlen as Hlen. rewrite (IH l Hlen). done.
Qed.

Lemma mask_select_no_zero {A} ls (l : list A) :
  length l = length ls → 0 ∉ ls →
  mask_select (non_zero_inds ls) l = l.
Proof.
  revert l. induction ls as [|z ls IH]; intros [|a l] Hlen Hz; try done.
  apply not_elem_of_cons in Hz as [Hz0 Hz].
  cbn [non_zero_inds map mask_select]. fold (non_zero_inds ls).
  destruct (Z.eqb_spec z 0) as [->|_]; [done|]. cbn [negb].
  injection Hlen as Hlen. by rewrite (IH l Hlen Hz).
Qed.

(** X7: what the training branch adds, the filter of the inference branch
    takes away. For a target whose labels are as many as its boxes, the
    BoxList with the bogus box, taken to the detector's ordering and back
    and filtered as predictions are, is the target filtered (without its
    scores); it is the target itself when none of its labels is [0]. *)
Theorem bogus_box_is_removed h w (y : BoxList F) :
  length (labels y) = length (boxes y) →
  remove_bogus (yxyx (xyxy (with_bogus h w y)))
  = remove_bogus (mkBoxList (boxes y) (labels y) None) ∧
  (0 ∉ labels y →
   remove_bogus (yxyx (xyxy (with_bogus h w y)))
   = mkBoxList (boxes y) (labels y) None).
Proof.
  intros Hlen.
  assert (Hrm : remove_bogus (yxyx (xyxy (with_bogus h w y)))
                = remove_bogus (mkBoxList (boxes y) (labels y) None)).
  { unfold remove_bogus, ind_filter, yxyx, xyxy, with_bogus. cbn.
    rewrite map_swap_order_involutive.
    by rewrite !mask_select_snoc_zero. }
  split; [done|]. intros Hz. rewrite Hrm.
  unfold remove_bogus, ind_filter. cbn.
  by rewrite !mask_select_no_zero.
Qed.
End Bogus_boxes.

(** ** Channel introspection *)

Section Introspection.
Context {F : Type} {E : Type}.
Implicit Types (net : ResNet F E) (heap : Heap) (x t : Tensor F).
Implicit Types (hooks : list save_output) (s : stage).

Lemma call_hooks_IndexError hooks t net heap :
  hooks ≠ [] → shape t !! 1%nat = None →
  call_hooks (E:=E) hooks t (net, heap) = (Raise IndexError, (net, heap)).
Proof.
  intros Hh Hc. destruct hooks as [|hook hooks]; [done|].
  cbn [call_hooks]. apply ST_bind_Raise. unfold call_hook.
  apply ST_bind_Raise. unfold shape_1. by rewrite Hc.
Qed.

(** A stage with a hook whose output has no dimension 1. *)
Lemma call_stage_IndexError s x t net heap :
  layer net s x = Ok t → shape t !! 1%nat = None →
  forward_hooks net s ≠ [] →
  call_stage s x (net, heap) = (Raise IndexError, (net, heap)).
Proof.
  intros Hl Hc Hh. unfold call_stage.
  rewrite (ST_bind_Ok _ _ _ t (net, heap)) by (by rewrite lift_spec, Hl).
  apply ST_bind_Raise. by apply call_hooks_IndexError.
Qed.

(** What a stage does, case by case. *)
Lemma call_stage_cases s x net heap :
  forward_hooks net s ≠ [] →
  (∃ t c, layer net s x = Ok t ∧ shape t !! 1%nat = Some c ∧
     call_stage s x (net, heap)
     = (Ok t, (net, hooks_heap (forward_hooks net s) c heap))) ∨
  (∃ e, call_stage s x (net, heap) = (Raise e, (net, heap))).
Proof.
  intros Hh. destruct (layer net s x) as [t|e] eqn:Hl.
  - destruct (shape t !! 1%nat) as [c|] eqn:Hc.
    + left. exists t, c. split_and!; [done..|]. by apply call_stage_Ok.
    + right. exists IndexError. by eapply call_stage_IndexError.
  - right. exists e. by apply call_stage_Raise.
Qed.

(** A forward pass that returns, on a network whose stages all have a
    hook: every stage gave an output with a dimension 1. *)
Lemma call_model_inv net heap x y st' :
  every_stage_observed net →
  call_model x (net, heap) = (Ok y, st') →
  ∃ x1 x2 x3 x4 c1 c2 c3 c4,
    stage_output net x layer1 = Ok x1 ∧
    stage_output net x layer2 = Ok x2 ∧
    stage_output net x layer3 = Ok x3 ∧
    stage_output net x layer4 = Ok x4 ∧
    head net x4 = Ok y ∧
    shape x1 !! 1%nat = Some c1 ∧ shape x2 !! 1%nat = Some c2 ∧
    shape x3 !! 1%nat = Some c3 ∧ shape x4 !! 1%nat = Some c4.
Proof.
  intros Hobs Hrun. unfold call_model in Hrun.
  destruct (stem net x) as [x0|e] eqn:H0.
  2:{ by rewrite (ST_bind_Raise _ _ _ e (net, heap)) in Hrun. }
  rewrite (ST_bind_Ok _ _ _ x0 (net, heap)) in Hrun by done.
  destruct (call_stage_cases layer1 x0 net heap (Hobs layer1))
    as [(x1 & c1 & L1 & Hc1 & R1)|[e R1]].
  2:{ by rewrite (ST_bind_Raise _ _ _ _ _ R1) in Hrun. }
  rewrite (ST_bind_Ok _ _ _ _ _ R1) in Hrun.
  destruct (call_stage_cases layer2 x1 net
              (hooks_heap (forward_hooks net layer1) c1 heap) (Hobs layer2))
    as [(x2 & c2 & L2 & Hc2 & R2)|[e R2]].
  2:{ by rewrite (ST_bind_Raise _ _ _ _ _ R2) in Hrun. }
  rewrite (ST_bind_Ok _ _ _ _ _ R2) in Hrun.
  destruct (call_stage_cases layer3 x2 net
              (hooks_heap (forward_hooks net layer2) c2
                 (hooks_heap (forward_hooks net layer1) c1 heap))
              (Hobs layer3))
    as [(x3 & c3 & L3 & Hc3 & R3)|[e R3]].
  2:{ by rewrite (ST_bind_Raise _ _ _ _ _ R3) in Hrun. }
  rewrite (ST_bind_Ok _ _ _ _ _ R3) in Hrun.
  destruct (call_stage_cases layer4 x3 net
              (hooks_heap (forward_hooks net layer3) c3
                 (hooks_heap (forward_hooks net layer2) c2
                    (hooks_heap (forward_hooks net layer1) c1 heap)))
              (Hobs layer4))
    as [(x4 & c4 & L4 & Hc4 & R4)|[e R4]].
  2:{ by rewrite (ST_bind_Raise _ _ _ _ _ R4) in Hrun. }
  rewrite (ST_bind_Ok _ _ _ _ _ R4) in Hrun.
  rewrite lift_spec in Hrun. injection Hrun as Hy _.
  exists x1, x2, x3, x4, c1, c2, c3, c4.
  unfold stage_output. rewrite H0. cbn. rewrite L1. cbn. rewrite L2. cbn.
  rewrite L3. cbn. by rewrite L4.
Qed.

Lemma observed_every_stage net out : every_stage_observed (observed net out).
Proof.
  intros s. rewrite observed_hooks. by destruct (forward_hooks net s).
Qed.
End Introspection.

Section Introspection_results.
Context {F : Type} {E : Type}.
Implicit Types (net : ResNet F E) (heap : Heap) (x t : Tensor F).
Implicit Types (hooks : list save_output) (s : stage).

Lemma has_key_alter heap a k a' k' c :
  has_key heap a k → has_key (alter (insert k' c) a' heap) a k.
Proof.
  intros (d & Hd & Hk). destruct (decide (a' = a)) as [->|Hne].
  - exists (<[k' := c]> d). split.
    + by rewrite list_lookup_alter_eq, Hd.
    + destruct (decide (k' = k)) as [->|Hk'].
      * rewrite lookup_insert_eq. by eexists.
      * by rewrite lookup_insert_ne.
  - exists d. split; [|done]. by rewrite list_lookup_alter_ne.
Qed.

(** Hooks add keys to the dicts and take none away. *)
Lemma has_key_hooks_heap hooks c heap a k :
  has_key heap a k → has_key (hooks_heap hooks c heap) a k.
Proof.
  revert heap. induction hooks as [|hook hooks IH]; intros heap Hk; [done|].
  rewrite hooks_heap_cons. by apply IH, has_key_alter.
Qed.

Lemma has_key_new hooks c heap a k :
  (a < length heap)%nat →
  has_key (hooks_heap (hooks ++ [mk_save_output a k]) c heap) a k.
Proof.
  intros Ha. rewrite hooks_heap_app, hooks_heap_cons. cbn.
  destruct (lookup_lt_is_Some_2 (hooks_heap hooks c heap) a) as [d Hd].
  { by rewrite length_hooks_heap. }
  exists (<[k := c]> d). split.
  - by rewrite list_lookup_alter_eq, Hd.
  - rewrite lookup_insert_eq. by eexists.
Qed.

Lemma has_key_dict_load heap a k net :
  has_key heap a k →
  ∃ v, dict_load (F:=F) (E:=E) a k (net, heap) = (Ok v, (net, heap)).
Proof.
  intros (d & Hd & [v Hv]). exists v. by eapply dict_load_Ok.
Qed.

(** [get_out_channels] when every stage answers with an output that has a
    dimension 1: the channels, the network with its observers and a heap
    with one more dict. *)
Lemma get_out_channels_Ok mem net heap x1 x2 x3 x4 y c1 c2 c3 c4 :
  hooks_wf net heap →
  stage_output net (dummy_input mem) layer1 = Ok x1 →
  stage_output net (dummy_input mem) layer2 = Ok x2 →
  stage_output net (dummy_input mem) layer3 = Ok x3 →
  stage_output net (dummy_input mem) layer4 = Ok x4 →
  head net x4 = Ok y →
  shape x1 !! 1%nat = Some c1 →
  shape x2 !! 1%nat = Some c2 →
  shape x3 !! 1%nat = Some c3 →
  shape x4 !! 1%nat = Some c4 →
  ∃ heap',
    get_out_channels mem (net, heap)
    = (Ok [c1; c2; c3; c4], (observed net (length heap), heap')) ∧
    length heap' = S (length heap).
Proof.
  intros Hwf H1 H2 H3 H4 Hy Hc1 Hc2 Hc3 Hc4.
  rewrite get_out_channels_start.
  set (out := length heap). set (net1 := observed net out).
  rewrite (ST_bind_Ok _ _ _ y _
             (call_model_Ok net1 _ _ x1 x2 x3 x4 y c1 c2 c3 c4
                H1 H2 H3 H4 Hy Hc1 Hc2 Hc3 Hc4)).
  set (heap1 := hooks_heap _ c4 _).
  assert (Hold : ∀ s hook, hook ∈ forward_hooks net s → hook_out hook ≠ out).
  { intros s hook Hin. specialize (Hwf s hook Hin). unfold out. lia. }
  assert (Hout : heap1 !! out
            = Some (<["layer4" := c4]> (<["layer3" := c3]>
                      (<["layer2" := c2]> (<["layer1" := c1]> ∅))))).
  { unfold heap1, net1. rewrite !observed_hooks.
    rewrite !hooks_heap_lookup_new by (by apply Hold).
    unfold out. by rewrite lookup_app_r, Nat.sub_diag by done. }
  set (d := <["layer4" := c4]> _) in Hout.
  assert (Hd1 : d !! "layer1" = Some c1) by (unfold d; by simplify_map_eq).
  assert (Hd2 : d !! "layer2" = Some c2) by (unfold d; by simplify_map_eq).
  assert (Hd3 : d !! "layer3" = Some c3) by (unfold d; by simplify_map_eq).
  assert (Hd4 : d !! "layer4" = Some c4) by (unfold d; by simplify_map_eq).
  rewrite (ST_bind_Ok _ _ _ c1 _ (dict_load_Ok _ _ _ c1 net1 _ Hout Hd1)).
  rewrite (ST_bind_Ok _ _ _ c2 _ (dict_load_Ok _ _ _ c2 net1 _ Hout Hd2)).
  rewrite (ST_bind_Ok _ _ _ c3 _ (dict_load_Ok _ _ _ c3 net1 _ Hout Hd3)).
  rewrite (ST_bind_Ok _ _ _ c4 _ (dict_load_Ok _ _ _ c4 net1 _ Hout Hd4)).
  exists heap1. split; [done|].
  unfold heap1. rewrite !length_hooks_heap, length_app. cbn. lia.
Qed.

(** A call of [get_out_channels] that returned, taken apart. *)
Lemma get_out_channels_inv mem net heap l st' :
  hooks_wf net heap →
  get_out_channels mem (net, heap) = (Ok l, st') →
  ∃ x1 x2 x3 x4 y c1 c2 c3 c4,
    stage_output net (dummy_input mem) layer1 = Ok x1 ∧
    stage_output net (dummy_input mem) layer2 = Ok x2 ∧
    stage_output net (dummy_input mem) layer3 = Ok x3 ∧
    stage_output net (dummy_input mem) layer4 = Ok x4 ∧
    head net x4 = Ok y ∧
    shape x1 !! 1%nat = Some c1 ∧ shape x2 !! 1%nat = Some c2 ∧
    shape x3 !! 1%nat = Some c3 ∧ shape x4 !! 1%nat = Some c4 ∧
    l = [c1; c2; c3; c4].
Proof.
  intros Hwf Hl.
  destruct (call_model (dummy_input mem)
              (observed net (length heap), heap ++ [∅]))
    as [[y|e] st1] eqn:Hrun.
  - destruct (call_model_inv _ _ _ _ _ (observed_every_stage net _) Hrun)
      as (x1 & x2 & x3 & x4 & c1 & c2 & c3 & c4
          & H1 & H2 & H3 & H4 & Hy & Hc1 & Hc2 & Hc3 & Hc4).
    exists x1, x2, x3, x4, y, c1, c2, c3, c4. split_and!; try done.
    destruct (get_out_channels_Ok mem net heap x1 x2 x3 x4 y c1 c2 c3 c4)
      as (heap' & Hget & _); try done.
    rewrite Hget in Hl. by injection Hl as <-.
  - rewrite get_out_channels_start in Hl.
    by rewrite (ST_bind_Raise _ _ _ _ _ Hrun) in Hl.
Qed.

(** X8: what [get_out_channels] returns is right. On a network whose hooks
    refer to dicts that exist, a returned list is the list of dimension 1
    of the outputs of the four stages on the input of the pass, which all
    answered; it has four entries. *)
Theorem get_out_channels_sound mem net heap l :
  hooks_wf net heap →
  (get_out_channels mem (net, heap)).1 = Ok l →
  ∃ x1 x2 x3 x4 c1 c2 c3 c4,
    stage_output net (dummy_input mem) layer1 = Ok x1 ∧
    stage_output net (dummy_input mem) layer2 = Ok x2 ∧
    stage_output net (dummy_input mem) layer3 = Ok x3 ∧
    stage_output net (dummy_input mem) layer4 = Ok x4 ∧
    shape x1 !! 1%nat = Some c1 ∧ shape x2 !! 1%nat = Some c2 ∧
    shape x3 !! 1%nat = Some c3 ∧ shape x4 !! 1%nat = Some c4 ∧
    l = [c1; c2; c3; c4].
Proof.
  intros Hwf Hl.
  destruct (get_out_channels mem (net, heap)) as [r st'] eqn:Hrun.
  cbn in Hl. subst r.
  destruct (get_out_channels_inv mem net heap l st' Hwf Hrun)
    as (x1 & x2 & x3 & x4 & y & c1 & c2 & c3 & c4
        & H1 & H2 & H3 & H4 & _ & Hc1 & Hc2 & Hc3 & Hc4 & ->).
  by exists x1, x2, x3, x4, c1, c2, c3, c4.
Qed.

(** X9: the reads of the dict at the end of [get_out_channels] cannot
    fail. Whatever hooks the network had, [get_out_channels] either returns
    a list of four channel counts or raises what its forward pass - the
    network with the four observers, on the uninitialised input - raised. *)
Theorem get_out_channels_returns_unless_the_pass_raises mem net heap :
  (∃ c1 c2 c3 c4,
     (get_out_channels mem (net, heap)).1 = Ok [c1; c2; c3; c4]) ∨
  (∃ e,
     (call_model (dummy_input mem)
        (observed net (length heap), heap ++ [∅])).1 = Raise e ∧
     (get_out_channels mem (net, heap)).1 = Raise e).
Proof.
  rewrite get_out_channels_start.
  set (out := length heap). set (net1 := observed net out).
  destruct (call_model (dummy_input mem) (net1, heap ++ [∅]))
    as [[y|e] st'] eqn:Hrun.
  2:{ right. exists e. split; [done|].
      by rewrite (ST_bind_Raise _ _ _ _ _ Hrun). }
  left.
  destruct (call_model_inv _ _ _ _ _ (observed_every_stage net _) Hrun)
    as (x1 & x2 & x3 & x4 & c1 & c2 & c3 & c4
        & H1 & H2 & H3 & H4 & Hy & Hc1 & Hc2 & Hc3 & Hc4).
  rewrite (ST_bind_Ok _ _ _ y _
             (call_model_Ok net1 _ _ x1 x2 x3 x4 y c1 c2 c3 c4
                H1 H2 H3 H4 Hy Hc1 Hc2 Hc3 Hc4)).
  set (heap1 := hooks_heap _ c4 _).
  assert (Hlen : (out < length (heap ++ [∅ : Dict]))%nat).
  { rewrite length_app. cbn. unfold out. lia. }
  assert (Hk1 : has_key heap1 out "layer1").
  { unfold heap1, net1. do 3 apply has_key_hooks_heap.
    rewrite observed_hooks. by apply has_key_new. }
  assert (Hk2 : has_key heap1 out "layer2").
  { unfold heap1, net1. do 2 apply has_key_hooks_heap.
    rewrite (observed_hooks net out layer2). apply has_key_new.
    by rewrite length_hooks_heap. }
  assert (Hk3 : has_key heap1 out "layer3").
  { unfold heap1, net1. apply has_key_hooks_heap.
    rewrite (observed_hooks net out layer3). apply has_key_new.
    by rewrite !length_hooks_heap. }
  assert (Hk4 : has_key heap1 out "layer4").
  { unfold heap1, net1.
    rewrite (observed_hooks net out layer4). apply has_key_new.
    by rewrite !length_hooks_heap. }
  destruct (has_key_dict_load _ _ _ net1 Hk1) as [v1 Hv1].
  destruct (has_key_dict_load _ _ _ net1 Hk2) as [v2 Hv2].
  destruct (has_key_dict_load _ _ _ net1 Hk3) as [v3 Hv3].
  destruct (has_key_dict_load _ _ _ net1 Hk4) as [v4 Hv4].
  exists v1, v2, v3, v4.
  rewrite (ST_bind_Ok _ _ _ v1 _ Hv1), (ST_bind_Ok _ _ _ v2 _ Hv2).
  by rewrite (ST_bind_Ok _ _ _ v3 _ Hv3), (ST_bind_Ok _ _ _ v4 _ Hv4).
Qed.
End Introspection_results.

(** ** Building the backbone and the adapter *)

Section Building.
Context {F : Type} {E : Type}.
Implicit Types (net : ResNet F E) (heap : Heap).
Implicit Types (resnet_dict : string → option (bool → result E (ResNet F E))).

Lemma hooks_wf_observed net heap heap' :
  hooks_wf net heap → length heap' = S (length heap) →
  hooks_wf (observed net (length heap)) heap'.
Proof.
  intros Hwf Hlen s hook. rewrite observed_hooks, elem_of_app, Hlen.
  intros [Hold|Hnew].
  - specialize (Hwf s hook Hold). lia.
  - apply list_elem_of_singleton in Hnew as ->. cbn. lia.
Qed.

(** X10: [get_out_channels] can be called again. After a call that
    returned, on a network whose hooks refer to dicts that exist, a second
    call over the same memory returns the same list; the first observers
    are still there, so that each stage then has two more hooks than at the
    start. *)
Theorem get_out_channels_again mem net heap l net' heap' :
  hooks_wf net heap →
  get_out_channels mem (net, heap) = (Ok l, (net', heap')) →
  (get_out_channels mem (net', heap')).1 = Ok l ∧
  ∀ s, forward_hooks (get_out_channels mem (net', heap')).2.1 s
       = forward_hooks net s
         ++ [make_save_output (length heap) (stage_name s);
             make_save_output (S (length heap)) (stage_name s)].
Proof.
  intros Hwf Hrun.
  destruct (get_out_channels_inv mem net heap l _ Hwf Hrun)
    as (x1 & x2 & x3 & x4 & y & c1 & c2 & c3 & c4
        & H1 & H2 & H3 & H4 & Hy & Hc1 & Hc2 & Hc3 & Hc4 & ->).
  destruct (get_out_channels_Ok mem net heap x1 x2 x3 x4 y c1 c2 c3 c4)
    as (heap1 & Hget & Hlen); try done.
  rewrite Hget in Hrun. injection Hrun as <- <-.
  split.
  - destruct (get_out_channels_Ok mem (observed net (length heap)) heap1
                x1 x2 x3 x4 y c1 c2 c3 c4) as (heap2 & Hget2 & _); try done.
    + by apply hooks_wf_observed.
    + by rewrite Hget2.
  - intros s. rewrite get_out_channels_net, !observed_hooks, Hlen.
    by rewrite <- (assoc_L (++)).
Qed.

(** X11: the backbone that [resnet_fpn_backbone] builds from a known
    architecture whose stages answer on the input of the pass: the network
    frozen and observed, the four layers returned under the levels 0 to 3,
    the measured channels of the four stages and 256 output channels; one
    dict is added to the heap. *)
Theorem resnet_fpn_backbone_builds
    resnet_dict mem backbone_name pretrained heap constructor net
    x1 x2 x3 x4 y c1 c2 c3 c4 :
  resnet_dict backbone_name = Some constructor →
  constructor pretrained = Ok net →
  hooks_wf net heap →
  stage_output net (dummy_input mem) layer1 = Ok x1 →
  stage_output net (dummy_input mem) layer2 = Ok x2 →
  stage_output net (dummy_input mem) layer3 = Ok x3 →
  stage_output net (dummy_input mem) layer4 = Ok x4 →
  head net x4 = Ok y →
  shape x1 !! 1%nat = Some c1 →
  shape x2 !! 1%nat = Some c2 →
  shape x3 !! 1%nat = Some c3 →
  shape x4 !! 1%nat = Some c4 →
  ∃ heap',
    resnet_fpn_backbone resnet_dict mem backbone_name pretrained heap
    = (Ok {| body := observed (freeze_net net) (length heap);
             return_layers := [("layer1", 0%nat); ("layer2", 1%nat);
                               ("layer3", 2%nat); ("layer4", 3%nat)];
             in_channels_list := [c1; c2; c3; c4];
             out_channels := 256 |},
       heap') ∧
    length heap' = S (length heap).
Proof.
  intros Hd Hc Hwf H1 H2 H3 H4 Hy Hc1 Hc2 Hc3 Hc4.
  destruct (get_out_channels_Ok mem (freeze_net net) heap
              x1 x2 x3 x4 y c1 c2 c3 c4) as (heap' & Hget & Hlen); try done.
  exists heap'. split; [|done].
  unfold resnet_fpn_backbone. rewrite Hd, Hc.
  change ((freeze;; get_out_channels mem) (net, heap))
    with (get_out_channels mem (freeze_net net, heap)).
  by rewrite Hget.
Qed.

(** X12: an architecture that [resnet.__dict__] does not know is refused
    with a [KeyError] at once: by [resnet_fpn_backbone], and by the
    constructor of the adapter whatever the constructor of the detector
    would do; no dict is made and no forward pass is run. *)
Theorem unknown_architecture_is_refused
    resnet_dict faster_rcnn mem backbone_arch num_labels img_sz pretrained
    heap :
  resnet_dict backbone_arch = None →
  resnet_fpn_backbone resnet_dict mem backbone_arch pretrained heap
  = (Raise (KeyError backbone_arch), heap) ∧
  MyFasterRCNN_init resnet_dict faster_rcnn mem backbone_arch num_labels
    img_sz pretrained heap
  = (Raise (KeyError backbone_arch), heap).
Proof.
  intros Hd. unfold MyFasterRCNN_init, resnet_fpn_backbone. by rewrite Hd.
Qed.

(** X13: the adapter is constructed when the backbone is built and the
    detector's constructor accepts it. The detector is constructed from
    that backbone with [img_sz] as its smallest and as its largest size,
    and the adapter holds it with the five names of losses. *)
Theorem MyFasterRCNN_init_builds
    resnet_dict faster_rcnn mem backbone_arch num_labels img_sz pretrained
    heap constructor net x1 x2 x3 x4 y c1 c2 c3 c4 model :
  resnet_dict backbone_arch = Some constructor →
  constructor pretrained = Ok net →
  hooks_wf net heap →
  stage_output net (dummy_input mem) layer1 = Ok x1 →
  stage_output net (dummy_input mem) layer2 = Ok x2 →
  stage_output net (dummy_input mem) layer3 = Ok x3 →
  stage_output net (dummy_input mem) layer4 = Ok x4 →
  head net x4 = Ok y →
  shape x1 !! 1%nat = Some c1 →
  shape x2 !! 1%nat = Some c2 →
  shape x3 !! 1%nat = Some c3 →
  shape x4 !! 1%nat = Some c4 →
  faster_rcnn
    {| body := observed (freeze_net net) (length heap);
       return_layers := [("layer1", 0%nat); ("layer2", 1%nat);
                         ("layer3", 2%nat); ("layer4", 3%nat)];
       in_channels_list := [c1; c2; c3; c4];
       out_channels := 256 |}
    num_labels img_sz img_sz = Ok model →
  ∃ heap',
    MyFasterRCNN_init resnet_dict faster_rcnn mem backbone_arch num_labels
      img_sz pretrained heap
    = (Ok {| self_model := model;
             self_subloss_names :=
               ["total_loss"; "loss_box_reg"; "loss_classifier";
                "loss_objectness"; "loss_rpn_box_reg"] |},
       heap') ∧
    length heap' = S (length heap).
Proof.
  intros Hd Hc Hwf H1 H2 H3 H4 Hy Hc1 Hc2 Hc3 Hc4 Hmodel.
  destruct (get_out_channels_Ok mem (freeze_net net) heap
              x1 x2 x3 x4 y c1 c2 c3 c4) as (heap' & Hget & Hlen); try done.
  exists heap'. split; [|done].
  unfold MyFasterRCNN_init, resnet_fpn_backbone. rewrite Hd, Hc.
  change ((freeze;; get_out_channels mem) (net, heap))
    with (get_out_channels mem (freeze_net net, heap)).
  by rewrite Hget, Hmodel.
Qed.
End Building.

(** ** The inference branch over the memory *)

Section Inference_objects.
Context {F : Type} `{Scalar F} {E : Type}.
Implicit Types (σ : list (object F)) (v : BoxList F).

Lemma read_detection_mono σ σ' o (d : Detection F) :
  read_detection σ o = Some d → σ `prefix_of` σ' →
  read_detection σ' o = Some d.
Proof.
  unfold read_detection. intros Ho Hp.
  destruct (σ !! o.1.1) as [[bs| | |]|] eqn:Hb; try done.
  destruct (σ !! o.1.2) as [[|ls| |]|] eqn:Hl; try done.
  destruct (σ !! o.2) as [[| |ss|]|] eqn:Hs; try done.
  by rewrite (prefix_lookup_Some _ _ _ _ Hb Hp),
    (prefix_lookup_Some _ _ _ _ Hl Hp), (prefix_lookup_Some _ _ _ _ Hs Hp).
Qed.

Lemma returns_load_scores a ss σ :
  σ !! a = Some (ScoreTensor ss) →
  returns (load_scores (E:=E) a) σ (λ r σ', r = ss ∧ σ' = σ).
Proof. intros Ha. exists ss, σ. unfold load_scores. by rewrite Ha. Qed.

(** Filtering a BoxList in memory makes a new BoxList that stands for the
    filtered one. *)
Lemma returns_ind_filter_obj inds bl v σ :
  read_boxlist σ bl = Some v →
  returns (ind_filter_obj (E:=E) inds bl) σ
    (λ a σ', read_boxlist σ' a = Some (ind_filter inds v)).
Proof.
  intros Hbl.
  destruct (read_boxlist_Some σ bl v Hbl) as (b & l & s & Hblo & Hb & Hl & Hs).
  unfold ind_filter_obj.
  eapply returns_bind; [by apply returns_load_boxlist|].
  intros ? ? _ [-> ->].
  eapply returns_bind; [by apply returns_load_boxes|].
  intros ? ? _ [-> ->].
  eapply returns_bind; [apply returns_alloc|]. intros b' ? _ [-> ->].
  eapply returns_bind.
  { apply returns_load_labels. by apply lookup_app_l_Some. }
  intros ? ? _ [-> ->].
  eapply returns_bind; [apply returns_alloc|]. intros l' ? _ [-> ->].
  set (B := BoxTensor (mask_select inds (boxes v))).
  set (L := LabelTensor (mask_select inds (labels v))).
  destruct s as [s|].
  - destruct Hs as (ss & Hs & Hss).
    eapply returns_bind.
    { eapply returns_bind.
      { apply returns_load_scores. by do 2 apply lookup_app_l_Some. }
      intros ? ? _ [-> ->].
      eapply returns_bind; [apply returns_alloc|]. intros s' ? _ [-> ->].
      apply (returns_ret (Some (length ((σ ++ [B]) ++ [L]))) _
               (λ r σ', r = Some (length ((σ ++ [B]) ++ [L])) ∧
                        σ' = ((σ ++ [B]) ++ [L])
                             ++ [ScoreTensor (mask_select inds ss)])).
      done. }
    intros ? ? _ [-> ->].
    eapply returns_weaken; [apply returns_alloc|]. intros a ? _ [-> ->].
    set (S := ScoreTensor (mask_select inds ss)).
    set (O := BoxListObject _ _ _).
    assert (HB : ((((σ ++ [B]) ++ [L]) ++ [S]) ++ [O]) !! length σ = Some B).
    { rewrite <- !(assoc_L (++)). by apply list_lookup_middle. }
    assert (HL : ((((σ ++ [B]) ++ [L]) ++ [S]) ++ [O]) !! length (σ ++ [B])
                 = Some L).
    { rewrite <- !(assoc_L (++) (σ ++ [B])). by apply list_lookup_middle. }
    assert (HS : ((((σ ++ [B]) ++ [L]) ++ [S]) ++ [O])
                   !! length ((σ ++ [B]) ++ [L]) = Some S).
    { rewrite <- (assoc_L (++) ((σ ++ [B]) ++ [L])).
      by apply list_lookup_middle. }
    unfold read_boxlist. rewrite lookup_snoc. subst O. cbv beta iota.
    rewrite HB, HL, HS. unfold ind_filter. by rewrite Hss.
  - eapply returns_bind.
    { apply (returns_ret None _ (λ r σ', r = None ∧ σ' = (σ ++ [B]) ++ [L])).
      done. }
    intros ? ? _ [-> ->].
    eapply returns_weaken; [apply returns_alloc|]. intros a ? _ [-> ->].
    set (O := BoxListObject _ _ _).
    assert (HB : (((σ ++ [B]) ++ [L]) ++ [O]) !! length σ = Some B).
    { rewrite <- !(assoc_L (++)). by apply list_lookup_middle. }
    assert (HL : (((σ ++ [B]) ++ [L]) ++ [O]) !! length (σ ++ [B]) = Some L).
    { rewrite <- (assoc_L (++) (σ ++ [B])). by apply list_lookup_middle. }
    unfold read_boxlist. rewrite lookup_snoc. subst O. cbv beta iota.
    rewrite HB, HL. unfold ind_filter. by rewrite Hs.
Qed.

Lemma returns_remove_bogus_obj bl v σ :
  read_boxlist σ bl = Some v →
  returns (remove_bogus_obj (E:=E) bl) σ
    (λ a σ', read_boxlist σ' a = Some (remove_bogus v)).
Proof.
  intros Hbl.
  destruct (read_boxlist_Some σ bl v Hbl) as (b & l & s & Hblo & Hb & Hl & _).
  unfold remove_bogus_obj.
  eapply returns_bind; [by apply returns_load_boxlist|].
  intros ? ? _ [-> ->].
  eapply returns_bind; [by apply returns_load_labels|].
  intros ? ? _ [-> ->].
  by apply returns_ind_filter_obj.
Qed.

Lemma returns_to_boxlist_obj o (d : Detection F) σ :
  read_detection σ o = Some d →
  returns (to_boxlist_obj (E:=E) o) σ
    (λ a σ', read_boxlist σ' a = Some (to_boxlist d)).
Proof.
  destruct o as [[b l] s]. unfold read_detection. cbn. intros Ho.
  destruct (σ !! b) as [[bs| | |]|] eqn:Hb; try done.
  destruct (σ !! l) as [[|ls| |]|] eqn:Hl; try done.
  destruct (σ !! s) as [[| |ss|]|] eqn:Hs; try done.
  injection Ho as <-. unfold to_boxlist_obj, yxyx_obj.
  eapply returns_bind; [apply returns_alloc|]. intros bl ? _ [-> ->].
  apply (returns_xyxy_obj (length σ) (mkBoxList bs ls (Some ss))).
  unfold read_boxlist. rewrite lookup_snoc.
  by rewrite (lookup_app_l_Some _ _ _ _ Hb), (lookup_app_l_Some _ _ _ _ Hl),
    (lookup_app_l_Some _ _ _ _ Hs).
Qed.

(** X15: the inference branch over the memory computes what the inference
    branch over values computes. When the detector hands back tensors that
    stand for the detections that the detector over values returns, and
    the arrays of each detection are of one length (so that the mask of the
    labels fits them), [forward_obj] returns, having only added objects,
    the addresses of BoxLists that stand for the predictions of
    [forward]. *)
Theorem forward_obj_inference_refines
    (model_obj : FasterRCNN_obj F E) (model : FasterRCNN F E) input
    (targets_obj : option (list nat)) (targets : option (list (BoxList F)))
    σ σ1 out dets :
  truthy targets_obj = false →
  truthy targets = false →
  call_obj model_obj input σ = (Ok out, σ1) →
  call model input = Ok dets →
  Forall2 (λ o d, read_detection σ1 o = Some d) out dets →
  (∀ d, d ∈ dets →
     length (out_boxes d) = length (out_labels d) ∧
     length (out_scores d) = length (out_labels d)) →
  ∃ addrs σ' bls,
    forward_obj model_obj input targets_obj σ
    = (Ok (Predictions_obj addrs), σ') ∧
    σ1 `prefix_of` σ' ∧
    forward model input targets = Ok (Predictions bls) ∧
    Forall2 (λ a v, read_boxlist σ' a = Some v) addrs bls.
Proof.
  intros Hto Ht Hcall_obj Hcall Hout _.
  assert (Hrest :
    returns (boxlists ← for_each_st (to_boxlist_obj (E:=E)) out;
             new_boxlists ← for_each_st remove_bogus_obj boxlists;
             mret (Predictions_obj (F:=F) new_boxlists)) σ1
      (λ r σ', ∃ addrs, r = Predictions_obj addrs ∧
         Forall2 (λ a v, read_boxlist σ' a = Some v) addrs
           (map remove_bogus (map to_boxlist dets)))).
  { eapply returns_bind.
    { apply (returns_for_each_st to_boxlist_obj to_boxlist
               (λ o d σ', read_detection σ' o = Some d)
               (λ a v σ', read_boxlist σ' a = Some v) out dets σ1).
      - intros o d σa σb Ho Hp. by eapply read_detection_mono.
      - intros a v σa σb Ha Hp. by eapply read_boxlist_mono.
      - intros o d σ' Ho. by apply returns_to_boxlist_obj.
      - exact Hout. }
    intros bls σ2 Hp2 Hbls.
    eapply returns_bind.
    { apply (returns_for_each_st remove_bogus_obj remove_bogus
               (λ a v σ', read_boxlist σ' a = Some v)
               (λ a v σ', read_boxlist σ' a = Some v)
               bls (map to_boxlist dets) σ2).
      - intros a v σa σb Ha Hp. by eapply read_boxlist_mono.
      - intros a v σa σb Ha Hp. by eapply read_boxlist_mono.
      - intros a v σ' Ha. by apply returns_remove_bogus_obj.
      - exact Hbls. }
    intros addrs σ3 Hp3 Haddrs. apply returns_ret. by exists addrs. }
  destruct Hrest as (r & σ' & Hrun & Hp & addrs & -> & Haddrs).
  exists addrs, σ', (map remove_bogus (map to_boxlist dets)). split_and!.
  - unfold forward_obj. rewrite Hto.
    by rewrite (ST_bind_Ok _ _ _ out σ1 Hcall_obj).
  - done.
  - by rewrite forward_inference, Hcall.
  - done.
Qed.
End Inference_objects.

(** ** The training branch over the memory *)

Section Training_objects.
Context {F : Type} `{Scalar F} {E : Type}.
Implicit Types (σ : list (object F)).

(** X14: the training branch over the memory computes what the training
    branch over values computes. On a batch of images, with addresses that
    stand for the targets and a detector that answers from the content of
    the tensors it is handed as the detector over values answers,
    [forward_obj] returns the losses that [forward] returns and raises the
    error that [forward] raises. *)
Theorem forward_obj_training_refines
    (model_obj : FasterRCNN_obj F E) (model : FasterRCNN F E) input
    (ys : list nat) (vs : list (BoxList F)) σ n c h w :
  shape input = [n; c; h; w] →
  ys ≠ [] →
  Forall2 (λ y v, read_boxlist σ y = Some v) ys vs →
  (∀ ts tvs σ1,
     Forall2 (λ t tv, read_target σ1 t = Some tv) ts tvs →
     (call_with_targets_obj model_obj input ts σ1).1
     = call_with_targets model input tvs) →
  (∀ d, (forward_obj model_obj input (Some ys) σ).1 = Ok (Losses_obj d)
        ↔ forward model input (Some vs) = Ok (Losses d)) ∧
  (∀ e, (forward_obj model_obj input (Some ys) σ).1 = Raise e
        ↔ forward model input (Some vs) = Raise e).
Proof.
  intros Hs Hys Hread Hagree.
  destruct (_targets_obj_refines (E:=E) input ys vs σ n c h w Hs Hread)
    as (Haug & ts & σ1 & Hrun & Hp & Hts).
  assert (Hvs : vs ≠ []).
  { intros ->. apply Forall2_nil_inv_r in Hread. done. }
  assert (Hobj : forward_obj model_obj input (Some ys) σ
                 = (loss_dict ← call_with_targets_obj model_obj input ts;
                    mret (Losses_obj (add_total_loss loss_dict))) σ1).
  { destruct ys as [|y ys]; [done|]. unfold forward_obj. cbn [truthy default].
    by rewrite (ST_bind_Ok _ _ _ ts σ1 Hrun). }
  assert (Hval : forward model input (Some vs)
                 = (loss_dict ← call_with_targets model input
                                  (_targets (map (with_bogus h w) (take n vs)));
                    mret (Losses (add_total_loss loss_dict)))).
  { destruct vs as [|v vs]; [done|]. by rewrite forward_training, Haug. }
  rewrite Hobj, Hval. specialize (Hagree ts _ σ1 Hts).
  unfold mbind at 1 3, ST_mbind, ST_bind.
  destruct (call_with_targets_obj model_obj input ts σ1) as [r σ2].
  cbn in Hagree. rewrite <- Hagree.
  destruct r as [d0|e0]; cbn; split.
  - intros d. split; intros [= <-]; done.
  - intros e. split; intros [=].
  - intros d. split; intros [=].
  - intros e. split; intros [= <-]; done.
Qed.
End Training_objects.

(** ** Worked instances of the further properties *)

Section Further_instances.
Import Examples.

Lemma freeze_layers_never_enables_witness :
  freeze_layers (named_parameters toy_resnet) !! 3%nat
  = Some ("layer2.0.conv1.weight", true) ∧
  named_parameters toy_resnet !! 3%nat = Some ("layer2.0.conv1.weight", true).
Proof.
  split; [reflexivity|].
  destruct (freeze_layers_never_enables (named_parameters toy_resnet) 3
              "layer2.0.conv1.weight" true)
    as (_ & g & Hg & Htrue).
  - reflexivity.
  - destruct (Htrue eq_refl) as [-> _]. exact Hg.
Defined.


(** A batch of images without channels. *)
Lemma forward_refuses_malformed_batch_witness :
  forward strict_detector (mkTensor [2; 4; 5]%nat (λ _, 0)) (Some [no_boxes])
  = Raise ValueError.
Proof.
  destruct (forward_refuses_malformed_batch (F:=Z) strict_detector
              (mkTensor [2; 4; 5]%nat (λ _, 0)) [no_boxes])
    as [_ Hrank].
  - discriminate.
  - apply (Hrank 1%nat [4; 5]%nat).
    + reflexivity.
    + cbn. lia.
Defined.

Lemma forward_ignores_target_scores_witness :
  forward strict_detector (batch 1 4 5 0) (Some [three_boxes])
  = forward strict_detector (batch 1 4 5 0)
      (Some [mkBoxList (boxes three_boxes) (labels three_boxes)
               (Some [9; 8; 7])]).
Proof.
  apply (forward_ignores_target_scores (F:=Z) strict_detector).
  - reflexivity.
  - reflexivity.
Defined.

Lemma inference_keeps_rows_aligned_witness :
  ∃ bl,
    forward strict_detector (batch 1 4 5 0) None = Ok (Predictions [bl]) ∧
    rows (boxes bl) (labels bl) (default [] (scores bl))
    = [((2, 1, 4, 3), 2, 90); ((2, 2, 6, 5), 1, 70); ((1, 4, 3, 7), 3, 50)].
Proof.
  destruct (inference_keeps_rows_aligned (F:=Z) strict_detector
              (batch 1 4 5 0) None
              [mkDetection [(1, 2, 3, 4); (0, 0, 9, 9); (2, 2, 5, 6);
                            (0, 0, 8, 8); (4, 1, 7, 3)]
                 [2; 0; 1; 0; 3] [90; 80; 70; 60; 50]])
    as (bls & Hf & Hrows).
  - reflexivity.
  - reflexivity.
  - intros o Ho. apply list_elem_of_singleton in Ho as ->. split; reflexivity.
  - apply Forall2_cons_inv_l in Hrows as (bl & bls' & (ss & Hss & Hbl) & Hnil & ->).
    apply Forall2_nil_inv_l in Hnil as ->.
    exists bl. split; [exact Hf|]. rewrite Hss. exact Hbl.
Defined.

Lemma bogus_box_is_removed_witness :
  remove_bogus (yxyx (xyxy (with_bogus 4 5 three_boxes))) = three_boxes.
Proof.
  destruct (bogus_box_is_removed (F:=Z) 4 5 three_boxes) as [_ Hsame].
  - reflexivity.
  - apply Hsame. by apply (bool_decide_unpack _).
Defined.

Lemma toy_hooks_wf : hooks_wf toy_resnet [].
Proof. intros s hook Hin. destruct s; by apply elem_of_nil in Hin. Qed.

Lemma get_out_channels_sound_witness :
  ∃ c1 c2 c3 c4,
    (get_out_channels (λ _, 1) (toy_resnet, [])).1 = Ok [c1; c2; c3; c4] ∧
    [c1; c2; c3; c4] = [64; 128; 256; 512]%nat.
Proof.
  destruct (get_out_channels_sound (λ _, 1) toy_resnet []
              [64; 128; 256; 512]%nat toy_hooks_wf)
    as (x1 & x2 & x3 & x4 & c1 & c2 & c3 & c4 & _ & _ & _ & _ & _ & _ & _ & _ & Hl).
  - reflexivity.
  - exists c1, c2, c3, c4. split; [|by symmetry].
    rewrite <- Hl. reflexivity.
Defined.

Lemma toy_introspection :
  get_out_channels (λ _, 0) (toy_resnet, [])
  = (Ok [64; 128; 256; 512]%nat,
     (observed toy_resnet 0,
      [{["layer1" := 64%nat; "layer2" := 128%nat;
         "layer3" := 256%nat; "layer4" := 512%nat]}])).
Proof. by vm_compute. Qed.

Lemma get_out_channels_again_witness :
  (get_out_channels (λ _, 0)
     (observed toy_resnet 0,
      [{["layer1" := 64%nat; "layer2" := 128%nat;
         "layer3" := 256%nat; "layer4" := 512%nat]}])).1
  = Ok [64; 128; 256; 512]%nat.
Proof.
  destruct (get_out_channels_again (λ _, 0) toy_resnet [] _ _ _
              toy_hooks_wf toy_introspection) as [Hsame _].
  exact Hsame.
Defined.

Lemma resnet_fpn_backbone_builds_witness :
  ∃ heap',
    resnet_fpn_backbone toy_dict (λ _, 0) "resnet18" true []
    = (Ok {| body := observed (freeze_net toy_resnet) 0;
             return_layers := [("layer1", 0%nat); ("layer2", 1%nat);
                               ("layer3", 2%nat); ("layer4", 3%nat)];
             in_channels_list := [64; 128; 256; 512]%nat;
             out_channels := 256 |},
       heap') ∧
    length heap' = 1%nat.
Proof.
  apply (resnet_fpn_backbone_builds toy_dict (λ _, 0) "resnet18" true []
           (λ _, Ok toy_resnet) toy_resnet
           (mkTensor [1; 64; 32; 32]%nat (λ _, 0))
           (mkTensor [1; 128; 16; 16]%nat (λ _, 0))
           (mkTensor [1; 256; 8; 8]%nat (λ _, 0))
           (mkTensor [1; 512; 4; 4]%nat (λ _, 0))
           (mkTensor [1; 1000]%nat (λ _, 0))).
  - reflexivity.
  - reflexivity.
  - exact toy_hooks_wf.
  - reflexivity.
  - reflexivity.
  - reflexivity.
  - reflexivity.
  - reflexivity.
  - reflexivity.
  - reflexivity.
  - reflexivity.
  - reflexivity.
Defined.

Lemma unknown_architecture_is_refused_witness :
  MyFasterRCNN_init toy_dict toy_faster_rcnn (λ _, 0) "resnet19" 3 300 true []
  = (Raise (KeyError "resnet19"), []).
Proof.
  destruct (unknown_architecture_is_refused toy_dict toy_faster_rcnn (λ _, 0)
              "resnet19" 3 300 true []) as [_ Hinit].
  - reflexivity.
  - exact Hinit.
Defined.

Lemma MyFasterRCNN_init_builds_witness :
  ∃ heap',
    MyFasterRCNN_init toy_dict toy_faster_rcnn (λ _, 0) "resnet18" 3 300 true []
    = (Ok {| self_model := strict_detector;
             self_subloss_names :=
               ["total_loss"; "loss_box_reg"; "loss_classifier";
                "loss_objectness"; "loss_rpn_box_reg"] |},
       heap') ∧
    length heap' = 1%nat.
Proof.
  apply (MyFasterRCNN_init_builds toy_dict toy_faster_rcnn (λ _, 0) "resnet18"
           3 300 true [] (λ _, Ok toy_resnet) toy_resnet
           (mkTensor [1; 64; 32; 32]%nat (λ _, 0))
           (mkTensor [1; 128; 16; 16]%nat (λ _, 0))
           (mkTensor [1; 256; 8; 8]%nat (λ _, 0))
           (mkTensor [1; 512; 4; 4]%nat (λ _, 0))
           (mkTensor [1; 1000]%nat (λ _, 0))
           64%nat 128%nat 256%nat 512%nat).
  - reflexivity.
  - reflexivity.
  - exact toy_hooks_wf.
  - reflexivity.
  - reflexivity.
  - reflexivity.
  - reflexivity.
  - reflexivity.
  - reflexivity.
  - reflexivity.
  - reflexivity.
  - reflexivity.
  - reflexivity.
Defined.

Lemma caller_memory_targets :
  Forall2 (λ y v, read_boxlist caller_memory y = Some v) [2; 5]%nat
    [three_boxes; no_boxes].
Proof. repeat constructor. Qed.

Lemma forward_obj_training_refines_witness :
  (forward_obj clobbering_detector (batch 2 4 5 0) (Some [2; 5]%nat)
     caller_memory).1
  = Ok (Losses_obj [("loss_classifier", 3); ("loss_box_reg", 5);
                    ("loss_objectness", 7); ("loss_rpn_box_reg", 11);
                    ("total_loss", 26)]).
Proof.
  destruct (forward_obj_training_refines (F:=Z) clobbering_detector
              lenient_detector (batch 2 4 5 0) [2; 5]%nat
              [three_boxes; no_boxes] caller_memory 2 3 4 5)
    as [Hlosses _].
  - reflexivity.
  - discriminate.
  - exact caller_memory_targets.
  - intros ts tvs σ1 _. reflexivity.
  - apply Hlosses. reflexivity.
Defined.

Lemma forward_obj_inference_refines_witness :
  ∃ a σ',
    forward_obj clobbering_detector (batch 1 4 5 0) None caller_memory
    = (Ok (Predictions_obj [a]), σ') ∧
    read_boxlist σ' a = Some (mkBoxList [(2, 1, 4, 3)] [2] (Some [90])).
Proof.
  destruct (forward_obj_inference_refines (F:=Z) clobbering_detector
              lenient_detector (batch 1 4 5 0) None None caller_memory
              (caller_memory ++ [BoxTensor [(1, 2, 3, 4); (0, 0, 9, 9)];
                                 LabelTensor [2; 0]; ScoreTensor [90; 80]])
              [(6, 7, 8)]%nat
              [mkDetection [(1, 2, 3, 4); (0, 0, 9, 9)] [2; 0] [90; 80]])
    as (addrs & σ' & bls & Hobj & _ & Hval & Hread).
  - reflexivity.
  - reflexivity.
  - reflexivity.
  - reflexivity.
  - repeat constructor.
  - intros d Hd. apply list_elem_of_singleton in Hd as ->. split; reflexivity.
  - injection Hval as <-.
    apply Forall2_cons_inv_r in Hread as (a & addrs' & Ha & Hnil & ->).
    apply Forall2_nil_inv_r in Hnil as ->.
    exists a, σ'. split; [exact Hobj|exact Ha].
Defined.
End Further_instances.
